(** * Content Delivery & Edge Policy Layer: a shallow embedding

    The development embeds the policy core of the news front end
    (src/lib/api.ts, src/lib/security.ts, src/lib/cacheHeaders.ts,
    src/lib/env-validation.ts, scripts/validate-env.js, src/middleware.ts)
    and states the properties of the specification over it.

    Conventions.
    - A JavaScript string is a [string]: a sequence of code units, each below
      256 (the Latin-1 range of UTF-16 code units).
    - A JavaScript number that the code only uses as an integer is a [Z]
      (exact below 2^53); [NaN] is a value of its own where the code can
      produce it.
    - A call that may throw returns a [Res]; [try]/[catch] is [catch_with].
    - An object used as a dictionary is a [gmap]; an object whose entries are
      enumerated in insertion order ([Object.entries]) is an association list.
    - Platform classes the repository only calls ([URL], [Buffer]) are
      parameters of the definitions that use them. *)

From Stdlib Require Import ZArith NArith Ascii String List DecimalString Lia.
From Stdlib Require Strings.Byte.
From stdpp Require Import gmap strings list fin_maps.

Open Scope string_scope.
Open Scope list_scope.
#[local] Set Warnings "-register-all".

(** ** JavaScript strings *)

Module JsStr.

Definition code (c : ascii) : N := N_of_ascii c.

(** The characters matched by [\s] (and stripped by [trim]) below 256. *)
Definition is_space (c : ascii) : bool :=
  let n := code c in
  ((9 <=? n) && (n <=? 13) || (n =? 32) || (n =? 160))%N.

Definition lower_char (c : ascii) : ascii :=
  let n := code c in
  if ((65 <=? n) && (n <=? 90)
      || (192 <=? n) && (n <=? 222) && negb (n =? 215))%N
  then ascii_of_N (n + 32) else c.

(** [s.toLowerCase()] *)
Fixpoint toLowerCase (s : string) : string :=
  match s with
  | EmptyString => EmptyString
  | String c r => String (lower_char c) (toLowerCase r)
  end.

(** [parts.join(sep)] *)
Fixpoint join (sep : string) (parts : list string) : string :=
  match parts with
  | [] => ""
  | [p] => p
  | p :: rest => p +:+ sep +:+ join sep rest
  end.

(** [s.startsWith(p)] *)
Definition startsWith (s p : string) : bool := String.prefix p s.

(** [s.endsWith(p)]; also a literal pattern anchored by [$]. *)
Definition endsWith (s p : string) : bool :=
  String.prefix (String.rev p) (String.rev s).

(** [s.includes(p)] *)
Fixpoint includes (s p : string) : bool :=
  String.prefix p s ||
  match s with
  | EmptyString => false
  | String _ r => includes r p
  end.

(** [s.replace(/c/g, by)] for a one-character pattern [c]. *)
Fixpoint replace_all (c : ascii) (by_ : string) (s : string) : string :=
  match s with
  | EmptyString => EmptyString
  | String d r =>
      if Ascii.eqb d c then by_ +:+ replace_all c by_ r
      else String d (replace_all c by_ r)
  end.

Fixpoint drop_spaces (s : string) : string :=
  match s with
  | EmptyString => EmptyString
  | String c r => if is_space c then drop_spaces r else s
  end.

(** [s.trim()] *)
Definition trim (s : string) : string :=
  String.rev (drop_spaces (String.rev (drop_spaces s))).

(** [s.split(/\s+/)]: the scan keeps the piece being read in [cur] and
    remembers in [in_ws] whether it stands inside a run of white space. *)
Fixpoint split_ws_from (s cur : string) (in_ws : bool) : list string :=
  match s with
  | EmptyString => [cur]
  | String c r =>
      if is_space c then
        if in_ws then split_ws_from r cur true
        else cur :: split_ws_from r "" true
      else split_ws_from r (cur +:+ String c "") false
  end.

Definition split_ws (s : string) : list string := split_ws_from s "" false.

(** [s.split(c)] for a one-character separator. *)
Fixpoint split_char_from (sep : ascii) (s cur : string) : list string :=
  match s with
  | EmptyString => [cur]
  | String c r =>
      if Ascii.eqb c sep then cur :: split_char_from sep r ""
      else split_char_from sep r (cur +:+ String c "")
  end.

Definition split_char (sep : ascii) (s : string) : list string :=
  split_char_from sep s "".

(** [s.repeat(n)] *)
Fixpoint repeat (s : string) (n : nat) : string :=
  match n with
  | O => ""
  | S k => s +:+ repeat s k
  end.

(** The code of [c] lies between [lo] and [hi]. *)
Definition in_range (lo hi : N) (c : ascii) : bool :=
  ((lo <=? code c) && (code c <=? hi))%N.

(** Every character of [s] satisfies [p]. *)
Fixpoint all_chars (p : ascii -> bool) (s : string) : bool :=
  match s with
  | EmptyString => true
  | String c r => p c && all_chars p r
  end.

(** The double quote character, and a text between double quotes. *)
Definition dquote : ascii := ascii_of_N 34.
Definition quoted (s : string) : string :=
  String dquote (s +:+ String dquote EmptyString).

(** The decimal rendering of an integer, as a template literal prints it. *)
Definition of_Z (z : Z) : string := NilEmpty.string_of_int (Z.to_int z).

End JsStr.

(** ** Cache policy engine (src/lib/cacheHeaders.ts) *)

Module CacheHeaders.

Record CacheConfig := {
  maxAge : Z;
  sMaxAge : Z;
  staleWhileRevalidate : Z;
  staleIfError : option Z
}.

Definition html : CacheConfig :=
  {| maxAge := 3600; sMaxAge := 86400; staleWhileRevalidate := 604800;
     staleIfError := Some 2592000%Z |}.
Definition assets : CacheConfig :=
  {| maxAge := 31536000; sMaxAge := 31536000;
     staleWhileRevalidate := 31536000; staleIfError := None |}.
Definition images : CacheConfig :=
  {| maxAge := 2592000; sMaxAge := 2592000;
     staleWhileRevalidate := 2592000; staleIfError := None |}.
Definition api : CacheConfig :=
  {| maxAge := 300; sMaxAge := 300; staleWhileRevalidate := 600;
     staleIfError := None |}.
Definition analytics : CacheConfig :=
  {| maxAge := 0; sMaxAge := 0; staleWhileRevalidate := 0;
     staleIfError := None |}.

(** The table, in its order of declaration. *)
Definition CACHE_CONFIGS : list (string * CacheConfig) :=
  [("html", html); ("assets", assets); ("images", images); ("api", api);
   ("analytics", analytics)].

(** [if (config.staleIfError)]: present and not zero. *)
Definition truthy_number (n : option Z) : bool :=
  match n with
  | Some z => negb (z =? 0)%Z
  | None => false
  end.

Definition formatCacheControl (config : CacheConfig) : string :=
  let parts :=
    ["public";
     "max-age=" +:+ JsStr.of_Z (maxAge config);
     "s-maxage=" +:+ JsStr.of_Z (sMaxAge config);
     "stale-while-revalidate=" +:+ JsStr.of_Z (staleWhileRevalidate config)] in
  let parts :=
    if truthy_number (staleIfError config) then
      (parts ++ ["stale-if-error=" +:+
                 JsStr.of_Z (default 0%Z (staleIfError config))])%list
    else parts in
  JsStr.join ", " parts.

End CacheHeaders.

(** ** JavaScript values, exceptions and the calls the gateway makes *)

Module Js.

(** A value of type [any]: what [JSON.parse] can produce, and [undefined]
    and [NaN], which the code can produce itself. *)
Inductive value : Type :=
| VUndef
| VNull
| VBool (b : bool)
| VNum (z : Z)
| VNaN
| VStr (s : string)
| VArr (items : list value)
| VObj (fields : list (string * value)).

Inductive exn : Type :=
| TypeError
| RequestError (message : string).

(** The outcome of an expression that may throw. *)
Inductive Res (A : Type) : Type :=
| Ok (a : A)
| Throw (e : exn).
Arguments Ok {A} a.
Arguments Throw {A} e.

Definition bind {A B : Type} (r : Res A) (k : A -> Res B) : Res B :=
  match r with
  | Ok a => k a
  | Throw e => Throw e
  end.

(** [try { body } catch (error) { handler }] *)
Definition catch_with {A : Type} (body : Res A) (handler : exn -> A) : A :=
  match body with
  | Ok a => a
  | Throw e => handler e
  end.

(** [if (v)], [!v], [v || w]: the truth value of [v]. *)
Definition truthy (v : value) : bool :=
  match v with
  | VUndef | VNull | VNaN => false
  | VBool b => b
  | VNum z => negb (z =? 0)%Z
  | VStr s => negb (String.eqb s "")
  | VArr _ | VObj _ => true
  end.

Fixpoint field (fields : list (string * value)) (k : string) : value :=
  match fields with
  | [] => VUndef
  | (k', v) :: rest => if String.eqb k' k then v else field rest k
  end.

(** [v.k] for a property name [k] that no built-in prototype defines (all
    the names the gateway reads): a [TypeError] on [undefined] and [null],
    the field of an object, [undefined] otherwise. *)
Definition prop (v : value) (k : string) : Res value :=
  match v with
  | VUndef | VNull => Throw TypeError
  | VObj fields => Ok (field fields k)
  | _ => Ok VUndef
  end.

Fixpoint mapM {A B : Type} (f : A -> Res B) (l : list A) : Res (list B) :=
  match l with
  | [] => Ok []
  | a :: rest =>
      bind (f a) (fun b => bind (mapM f rest) (fun bs => Ok (b :: bs)))
  end.

(** [v.map(f)]: only an array has the method. *)
Definition arr_map (f : value -> Res value) (v : value) : Res value :=
  match v with
  | VArr items => bind (mapM f items) (fun l => Ok (VArr l))
  | _ => Throw TypeError
  end.

Fixpoint filterM {A : Type} (p : A -> Res bool) (l : list A) : Res (list A) :=
  match l with
  | [] => Ok []
  | a :: rest =>
      bind (p a) (fun keep =>
      bind (filterM p rest) (fun l' => Ok (if keep then a :: l' else l')))
  end.

(** [v.filter(p)] *)
Definition arr_filter (p : value -> Res bool) (v : value) : Res value :=
  match v with
  | VArr items => bind (filterM p items) (fun l => Ok (VArr l))
  | _ => Throw TypeError
  end.

Fixpoint chars (s : string) : list value :=
  match s with
  | EmptyString => []
  | String c r => VStr (String c "") :: chars r
  end.

(** [...v] in an argument list: arrays and strings are iterable. *)
Definition spread (v : value) : Res (list value) :=
  match v with
  | VArr items => Ok items
  | VStr s => Ok (chars s)
  | _ => Throw TypeError
  end.

(** [v !== s] for a string [s] *)
Definition strict_ne_str (v : value) (s : string) : bool :=
  match v with
  | VStr t => negb (String.eqb t s)
  | _ => true
  end.

Definition of_option_string (o : option string) : value :=
  match o with
  | Some s => VStr s
  | None => VUndef
  end.

(** *** [parseInt(s)] with no radix *)

Definition digit_value (radix : Z) (c : ascii) : option Z :=
  let n := Z.of_N (JsStr.code c) in
  let d :=
    if ((48 <=? n) && (n <=? 57))%Z then Some (n - 48)%Z
    else if ((97 <=? n) && (n <=? 122))%Z then Some (n - 87)%Z
    else if ((65 <=? n) && (n <=? 90))%Z then Some (n - 55)%Z
    else None in
  match d with
  | Some k => if (k <? radix)%Z then Some k else None
  | None => None
  end.

(** The longest prefix of digits, read from the left; [None] when the
    prefix is empty. *)
Fixpoint digits_prefix (radix : Z) (s : string) (acc : option Z) : option Z :=
  match s with
  | EmptyString => acc
  | String c r =>
      match digit_value radix c with
      | Some d => digits_prefix radix r (Some (default 0%Z acc * radix + d)%Z)
      | None => acc
      end
  end.

Definition parseInt (s : string) : value :=
  let s := JsStr.drop_spaces s in
  let '(sign, s) :=
    match s with
    | String "-" r => ((-1)%Z, r)
    | String "+" r => (1%Z, r)
    | _ => (1%Z, s)
    end in
  let '(radix, s) :=
    match s with
    | String "0" (String "x" r) | String "0" (String "X" r) => (16%Z, r)
    | _ => (10%Z, s)
    end in
  match digits_prefix radix s None with
  | Some n => VNum (sign * n)
  | None => VNaN
  end.

End Js.

Declare Scope res_scope.
Delimit Scope res_scope with res.
Notation "'do' x <- e ; k" := (Js.bind e (fun x => k))
  (at level 10, x name, e at level 100, k at level 200) : res_scope.

(** ** Content gateway (src/lib/api.ts) *)

Module Api.
Import Js.
Local Open Scope res_scope.

(** The named queries of src/lib/graphql.ts. *)
Inductive Query : Type :=
| GET_POSTS_QUERY
| GET_POST_BY_SLUG_QUERY
| GET_POSTS_BY_CATEGORY_QUERY
| GET_CATEGORIES_QUERY
| GET_AUTHOR_QUERY
| GET_TAG_QUERY
| GET_RELATED_POSTS_QUERY
| SEARCH_POSTS_QUERY
| GET_ALL_POSTS_SLUGS_QUERY
| GET_ALL_CATEGORIES_SLUGS_QUERY
| GET_ALL_AUTHORS_SLUGS_QUERY
| GET_ALL_TAGS_SLUGS_QUERY.

(** [graphqlClient.request(query, variables)] as the upstream answers it:
    the first argument counts the requests the running operation has
    already made, so an upstream may answer the same request differently
    the second time. *)
Definition Upstream : Type := nat -> Query -> value -> Res value.

Definition emptyPage : value :=
  VObj [("nodes", VArr []);
        ("pageInfo", VObj [("hasNextPage", VBool false);
                           ("endCursor", VNull)])].

Definition getPosts (up : Upstream) (first : Z) (after : option string) : value :=
  catch_with
    (do data <- up 0%nat GET_POSTS_QUERY
               (VObj [("first", VNum first); ("after", of_option_string after)]);
     prop data "posts")
    (fun _ => emptyPage).

Definition getPostBySlug (up : Upstream) (slug : string) : value :=
  catch_with
    (do data <- up 0%nat GET_POST_BY_SLUG_QUERY (VObj [("slug", VStr slug)]);
     prop data "postBy")
    (fun _ => VNull).

Definition getPostsByCategory (up : Upstream) (slug : string) (first : Z)
    (after : option string) : value :=
  catch_with
    (do data <- up 0%nat GET_POSTS_BY_CATEGORY_QUERY
               (VObj [("slug", VStr slug); ("first", VNum first);
                      ("after", of_option_string after)]);
     prop data "category")
    (fun _ => VNull).

Definition getCategories (up : Upstream) (first : Z) : value :=
  catch_with
    (do data <- up 0%nat GET_CATEGORIES_QUERY (VObj [("first", VNum first)]);
     do categories <- prop data "categories";
     prop categories "nodes")
    (fun _ => VArr []).

Definition getAuthor (up : Upstream) (slug : string) : value :=
  catch_with
    (do data <- up 0%nat GET_AUTHOR_QUERY (VObj [("slug", VStr slug)]);
     prop data "userBy")
    (fun _ => VNull).

Definition getTag (up : Upstream) (slug : string) : value :=
  catch_with
    (do data <- up 0%nat GET_TAG_QUERY (VObj [("slug", VStr slug)]);
     prop data "tag")
    (fun _ => VNull).

Section RelatedPosts.
(** [Buffer.from(s, 'base64').toString()] *)
Variable base64_decode : string -> Res string.

(** [parseInt(Buffer.from(id, 'base64').toString().split(':')[1] || id)] *)
Definition decoded_id (id : string) : Res value :=
  do text <- base64_decode id;
  let second := nth 1 (map VStr (JsStr.split_char ":" text)) VUndef in
  Ok (match second with
      | VStr s => if truthy second then parseInt s else parseInt id
      | _ => parseInt id
      end).

(** The inner [try]/[catch]: both numbers come from the decoded
    identifiers, or both from the raw ones. *)
Definition request_ids (categoryId excludeId : string) : value * value :=
  catch_with
    (do catId <- decoded_id categoryId;
     do postId <- decoded_id excludeId;
     Ok (catId, postId))
    (fun _ => (parseInt categoryId, parseInt excludeId)).

Definition getRelatedPosts (up : Upstream) (categoryId excludeId : string)
    (first : Z) : value :=
  catch_with
    (let '(catId, postId) := request_ids categoryId excludeId in
     do data <- up 0%nat GET_RELATED_POSTS_QUERY
               (VObj [("categoryId", catId); ("excludeId", postId);
                      ("first", VNum first)]);
     do posts <- prop data "posts";
     do nodes <- prop posts "nodes";
     arr_filter
       (fun post => do id <- prop post "id"; Ok (strict_ne_str id excludeId))
       nodes)
    (fun _ => VArr []).
End RelatedPosts.

Definition searchPosts (up : Upstream) (search : string) (first : Z) : value :=
  catch_with
    (do data <- up 0%nat SEARCH_POSTS_QUERY
               (VObj [("search", VStr search); ("first", VNum first)]);
     do posts <- prop data "posts";
     prop posts "nodes")
    (fun _ => VArr []).

(** *** The cursor walks

    [loop] is the [while (hasNextPage)] loop, one unit of [fuel] per
    iteration. It returns the values of [after] it sent, in order, and
    the outcome: [Ok (Some items)] when the loop has ended, [Ok None] when
    [fuel] iterations did not end it, [Throw e] when an iteration threw. *)
Section CursorWalk.
(** What one page adds to the accumulator. *)
Variable collect : value -> Res (list value).
Variable up : Upstream.

Definition page_step (n : nat) (after : value)
    : Res (list value * value * value) :=
  do data <- up n GET_ALL_POSTS_SLUGS_QUERY
            (VObj [("first", VNum 100); ("after", after)]);
  do posts <- prop data "posts";
  do nodes <- prop posts "nodes";
  do items <- collect nodes;
  do posts <- prop data "posts";
  do pageInfo <- prop posts "pageInfo";
  do hasNextPage <- prop pageInfo "hasNextPage";
  do posts <- prop data "posts";
  do pageInfo <- prop posts "pageInfo";
  do endCursor <- prop pageInfo "endCursor";
  Ok (items, hasNextPage, endCursor).

Fixpoint loop (fuel n : nat) (hasNextPage after : value) (acc : list value)
    : list value * Res (option (list value)) :=
  if truthy hasNextPage then
    match fuel with
    | O => ([], Ok None)
    | S fuel' =>
        match page_step n after with
        | Throw e => ([after], Throw e)
        | Ok (items, hasNextPage', endCursor) =>
            let '(sent, out) :=
              loop fuel' (S n) hasNextPage' endCursor (acc ++ items)%list in
            (after :: sent, out)
        end
    end
  else ([], Ok (Some acc)).

(** The function body around the loop: [None] while the loop runs. *)
Definition walk (fuel : nat) : option value :=
  match snd (loop fuel 0%nat (VBool true) VNull []) with
  | Ok (Some items) => Some (VArr items)
  | Ok None => None
  | Throw _ => Some (VArr [])
  end.

(** The values of [after] sent during the first [fuel] iterations. *)
Definition sent_cursors (fuel : nat) : list value :=
  fst (loop fuel 0%nat (VBool true) VNull []).
End CursorWalk.

(** [slugs.push(...data.posts.nodes.map((post) => post.slug))] *)
Definition collect_slugs (nodes : value) : Res (list value) :=
  do slugs <- arr_map (fun post => prop post "slug") nodes;
  spread slugs.

(** [posts.push(...data.posts.nodes)] *)
Definition collect_posts (nodes : value) : Res (list value) := spread nodes.

Definition getAllPostsSlugs (up : Upstream) (fuel : nat) : option value :=
  walk collect_slugs up fuel.

Definition getAllPostsWithDates (up : Upstream) (fuel : nat) : option value :=
  walk collect_posts up fuel.

Definition slugs_of (up : Upstream) (q : Query) (collection : string) : value :=
  catch_with
    (do data <- up 0%nat q (VObj [("first", VNum 100)]);
     do coll <- prop data collection;
     do nodes <- prop coll "nodes";
     arr_map (fun item => prop item "slug") nodes)
    (fun _ => VArr []).

Definition getAllCategoriesSlugs (up : Upstream) : value :=
  slugs_of up GET_ALL_CATEGORIES_SLUGS_QUERY "categories".

Definition getAllAuthorsSlugs (up : Upstream) : value :=
  slugs_of up GET_ALL_AUTHORS_SLUGS_QUERY "users".

Definition getAllTagsSlugs (up : Upstream) : value :=
  slugs_of up GET_ALL_TAGS_SLUGS_QUERY "tags".

(** [Math.ceil(wordCount / 200)] for a count of pieces. *)
Definition calculateReadingTime (content : option string) : Z :=
  match content with
  | None => 1
  | Some s =>
      if String.eqb s "" then 1
      else
        let wordsPerMinute := 200%Z in
        let wordCount := Z.of_nat (length (JsStr.split_ws s)) in
        ((wordCount + wordsPerMinute - 1) / wordsPerMinute)%Z
  end.

End Api.

(** ** The platform's [URL] class

    The repository reads two getters of a parsed URL, [protocol] (the scheme
    with its colon) and [hostname] (the host without the port). The
    constructor is a parameter of the code that calls it; [UrlModel.URL_new]
    is a model of it for evaluating that code on concrete inputs. *)

Module Url.
Record URL := { protocol : string; hostname : string }.

(** [new URL(url, base)]; [base] is absent for [new URL(url)]. *)
Definition Constructor : Type := string -> option string -> Js.Res URL.
End Url.

Module UrlModel.
Import Js Url.
Local Open Scope res_scope.

(** The scheme and authority steps of the URL standard's parser, on the
    fragment the examples use: a host is a domain of ASCII letters, digits,
    [-], [_] and [.] whose last label is not a number. A host outside the
    fragment (an IP literal, a percent escape, other punctuation) is
    reported as a failure by this model. *)

Definition is_alpha (c : ascii) : bool := JsStr.in_range 65 90 c || JsStr.in_range 97 122 c.
Definition is_digit (c : ascii) : bool := JsStr.in_range 48 57 c.
Definition is_scheme_char (c : ascii) : bool :=
  is_alpha c || is_digit c || Ascii.eqb c "+" || Ascii.eqb c "-" || Ascii.eqb c ".".
Definition is_host_char (c : ascii) : bool :=
  is_alpha c || is_digit c || Ascii.eqb c "-" || Ascii.eqb c "_" || Ascii.eqb c ".".
Definition is_slash (c : ascii) : bool := Ascii.eqb c "/" || Ascii.eqb c "\".
Definition is_c0_or_space (c : ascii) : bool := (JsStr.code c <=? 32)%N.
Definition is_tab_or_newline (c : ascii) : bool :=
  let n := JsStr.code c in ((n =? 9) || (n =? 10) || (n =? 13))%N.

Fixpoint take_while (p : ascii -> bool) (s : string) : string :=
  match s with
  | EmptyString => EmptyString
  | String c r => if p c then String c (take_while p r) else EmptyString
  end.

Fixpoint drop_while (p : ascii -> bool) (s : string) : string :=
  match s with
  | EmptyString => EmptyString
  | String c r => if p c then drop_while p r else s
  end.

Fixpoint remove (p : ascii -> bool) (s : string) : string :=
  match s with
  | EmptyString => EmptyString
  | String c r => if p c then remove p r else String c (remove p r)
  end.

(** Leading and trailing C0 controls and spaces go, then every tab and
    newline. *)
Definition preprocess (s : string) : string :=
  remove is_tab_or_newline
    (String.rev (drop_while is_c0_or_space
       (String.rev (drop_while is_c0_or_space s)))).

Definition special (scheme : string) : bool :=
  existsb (String.eqb scheme) ["ftp"; "file"; "http"; "https"; "ws"; "wss"].

(** [Some (scheme, rest)] when the input starts with a scheme and a colon. *)
Definition read_scheme (s : string) : option (string * string) :=
  match s with
  | String c _ =>
      if is_alpha c then
        match drop_while is_scheme_char s with
        | String ":" rest =>
            Some (JsStr.toLowerCase (take_while is_scheme_char s), rest)
        | _ => None
        end
      else None
  | EmptyString => None
  end.

(** The part of [s] after its last [@], and whether there is one. *)
Fixpoint after_last_at (s : string) : string * bool :=
  match s with
  | EmptyString => (EmptyString, false)
  | String c r =>
      let '(t, seen) := after_last_at r in
      if seen then (t, true)
      else if Ascii.eqb c "@" then (r, true)
      else (String c t, false)
  end.

Definition number_label (l : string) : bool :=
  negb (String.eqb l "") && JsStr.all_chars is_digit l
  || match l with
     | String "0" (String "x" r) | String "0" (String "X" r) =>
         JsStr.all_chars (fun c => is_digit c || JsStr.in_range 65 70 c || JsStr.in_range 97 102 c) r
     | _ => false
     end.

Definition ends_in_number (host : string) : bool :=
  match rev (JsStr.split_char "." host) with
  | "" :: l :: _ => number_label l
  | l :: _ => number_label l
  | [] => false
  end.

Definition valid_port (p : string) : bool :=
  JsStr.all_chars is_digit p &&
  match digits_prefix 10 p None with
  | Some n => (n <=? 65535)%Z
  | None => true
  end.

(** The authority state and the host state: [rest] stands after the
    slashes that open the authority. *)
Definition parse_authority (is_special : bool) (rest : string) : Res string :=
  let stop c :=
    Ascii.eqb c "/" || Ascii.eqb c "?" || Ascii.eqb c "#"
    || (is_special && Ascii.eqb c "\") in
  let authority := take_while (fun c => negb (stop c)) rest in
  let '(hostport, at_seen) := after_last_at authority in
  if at_seen && String.eqb hostport "" then Throw TypeError
  else
    let host := take_while (fun c => negb (Ascii.eqb c ":")) hostport in
    let after_host := drop_while (fun c => negb (Ascii.eqb c ":")) hostport in
    let port_ok :=
      match after_host with
      | String _ p => negb (String.eqb host "") && valid_port p
      | EmptyString => true
      end in
    if negb port_ok then Throw TypeError
    else if String.eqb host "" then
      if is_special then Throw TypeError else Ok ""
    else if JsStr.all_chars is_host_char host && negb (ends_in_number host) then
      Ok (if is_special then JsStr.toLowerCase host else host)
    else Throw TypeError.

(** The file state and the file host state. *)
Definition parse_file_host (rest : string) : Res string :=
  match rest with
  | String c1 (String c2 r) =>
      if is_slash c1 && is_slash c2 then
        let stop c := is_slash c || Ascii.eqb c "?" || Ascii.eqb c "#" in
        let buffer := take_while (fun c => negb (stop c)) r in
        match buffer with
        | EmptyString => Ok ""
        | String d (String e EmptyString) =>
            if is_alpha d && (Ascii.eqb e ":" || Ascii.eqb e "|") then Ok ""
            else
              do h <- parse_authority true buffer;
              Ok (if String.eqb h "localhost" then "" else h)
        | _ =>
            if existsb (Ascii.eqb ":") (list_ascii_of_string buffer)
            then Throw TypeError
            else
              do h <- parse_authority true buffer;
              Ok (if String.eqb h "localhost" then "" else h)
        end
      else Ok ""
  | _ => Ok ""
  end.

(** A parsed base: its scheme, its host, and whether its path is opaque. *)
Record Base := { scheme : string; host : string; opaque : bool }.

Definition parse_absolute (input : string) : Res Base :=
  match read_scheme (preprocess input) with
  | None => Throw TypeError
  | Some (sch, rest) =>
      if String.eqb sch "file" then
        do h <- parse_file_host rest;
        Ok {| scheme := sch; host := h; opaque := false |}
      else if special sch then
        do h <- parse_authority true (drop_while is_slash rest);
        Ok {| scheme := sch; host := h; opaque := false |}
      else
        match rest with
        | String "/" (String "/" r) =>
            do h <- parse_authority false r;
            Ok {| scheme := sch; host := h; opaque := false |}
        | String "/" _ => Ok {| scheme := sch; host := ""; opaque := false |}
        | _ => Ok {| scheme := sch; host := ""; opaque := true |}
        end
  end.

(** The relative state and the relative slash state, for a base that is
    not a file URL. *)
Definition parse_relative (b : Base) (rest : string) : Res Base :=
  let sp := special (scheme b) in
  match rest with
  | String c1 (String c2 r) =>
      if sp && is_slash c1 && is_slash c2 then
        do h <- parse_authority true (drop_while is_slash r);
        Ok {| scheme := scheme b; host := h; opaque := false |}
      else if Ascii.eqb c1 "/" && Ascii.eqb c2 "/" then
        do h <- parse_authority false r;
        Ok {| scheme := scheme b; host := h; opaque := false |}
      else Ok {| scheme := scheme b; host := host b; opaque := false |}
  | _ => Ok {| scheme := scheme b; host := host b; opaque := false |}
  end.

Definition parse_with_base (input : string) (b : Base) : Res Base :=
  let s := preprocess input in
  match read_scheme s with
  | Some (sch, rest) =>
      if special sch && String.eqb sch (scheme b) && negb (String.eqb sch "file")
      then parse_relative b rest
      else parse_absolute input
  | None =>
      if opaque b then
        match s with
        | String "#" _ => Ok b
        | _ => Throw TypeError
        end
      else if String.eqb (scheme b) "file" then Throw TypeError
      else parse_relative b s
  end.

Definition URL_new : Url.Constructor := fun url base =>
  do parsed <-
    match base with
    | None => parse_absolute url
    | Some b => do b' <- parse_absolute b; parse_with_base url b'
    end;
  Ok {| protocol := scheme parsed +:+ ":"; hostname := host parsed |}.

End UrlModel.

(** ** Security policy engine (src/lib/security.ts) *)

Module Security.
Import Js.
Local Open Scope res_scope.

(** The policy, in its order of declaration. *)
Definition CSP_HEADERS : list (string * list string) :=
  [("script-src",
    ["'self'"; "'nonce-{NONCE}'"; "https://www.googletagmanager.com";
     "https://www.google-analytics.com"; "https://cdn.jsdelivr.net"]);
   ("style-src",
    ["'self'"; "'unsafe-inline'"; "https://fonts.googleapis.com";
     "https://cdn.jsdelivr.net"]);
   ("font-src", ["'self'"; "https://fonts.gstatic.com"; "data:"]);
   ("img-src",
    ["'self'"; "data:"; "https:"; "https://www.googletagmanager.com";
     "https://www.google-analytics.com"; "https://www.facebook.com"]);
   ("connect-src",
    ["'self'"; "https://www.google-analytics.com";
     "https://www.googletagmanager.com";
     "https://region1.google-analytics.com";
     "process.env.WPGRAPHQL_ENDPOINT"]);
   ("frame-src", ["'none'"]);
   ("object-src", ["'none'"]);
   ("media-src", ["'self'"]);
   ("default-src", ["'self'"]);
   ("form-action", ["'self'"]);
   ("frame-ancestors", ["'none'"]);
   ("upgrade-insecure-requests", [])].

Definition SECURITY_HEADERS : list (string * string) :=
  [("X-Frame-Options", "DENY");
   ("X-Content-Type-Options", "nosniff");
   ("X-XSS-Protection", "1; mode=block");
   ("Strict-Transport-Security", "max-age=31536000; includeSubDomains; preload");
   ("Referrer-Policy", "strict-origin-when-cross-origin");
   ("Permissions-Policy", "camera=(), microphone=(), geolocation=(self), payment=()");
   ("Server", "Apache");
   ("Cache-Control", "public, max-age=31536000, immutable")].

(** *** [s.replace(pattern, replacement)] for a string pattern *)

(** The text before and after the first occurrence of [pat]. *)
Fixpoint split_at_first (pat s : string) : option (string * string) :=
  if String.prefix pat s
  then Some ("", String.substring (String.length pat)
                   (String.length s - String.length pat) s)
  else
    match s with
    | EmptyString => None
    | String c r =>
        match split_at_first pat r with
        | Some (before, after) => Some (String c before, after)
        | None => None
        end
    end.

(** The replacement text with its [$] patterns expanded; a pattern that
    names a capture stays as written, a string pattern has no captures. *)
Fixpoint substitution (rep matched before after : string) : string :=
  match rep with
  | EmptyString => EmptyString
  | String "$" r =>
      match r with
      | String "$" r' => String "$" (substitution r' matched before after)
      | String "&" r' => matched +:+ substitution r' matched before after
      | String "`" r' => before +:+ substitution r' matched before after
      | String "'" r' => after +:+ substitution r' matched before after
      | _ => String "$" (substitution r matched before after)
      end
  | String c r => String c (substitution r matched before after)
  end.

Definition replace_first (pat rep s : string) : string :=
  match split_at_first pat s with
  | Some (before, after) =>
      before +:+ substitution rep pat before after +:+ after
  | None => s
  end.

(** The callback of [sources.map]. *)
Definition render_source (nonce : option string) (src : string) : string :=
  if JsStr.includes src "{NONCE}" && truthy (of_option_string nonce)
  then replace_first "{NONCE}" (default "" nonce) src
  else if JsStr.startsWith src "process.env." then src
  else src.

(** The callback of [Object.entries(cspConfig).map]. *)
Definition render_directive (nonce : option string)
    (entry : string * list string) : string :=
  let '(directive, sources) := entry in
  let sourcesStr := JsStr.join " " (map (render_source nonce) sources) in
  JsStr.trim (directive +:+ " " +:+ sourcesStr).

Definition buildCSPHeader (cspConfig : list (string * list string))
    (nonce : option string) : string :=
  JsStr.join "; " (map (render_directive nonce) cspConfig).

(** *** Redirect validation *)

(** [list.some(p)] for a callback that may throw: the scan stops at the
    first element [p] accepts. *)
Fixpoint someM {A : Type} (p : A -> Res bool) (l : list A) : Res bool :=
  match l with
  | [] => Ok false
  | a :: rest => do b <- p a; if b then Ok true else someM p rest
  end.

Section Redirect.
Variable URL_new : Url.Constructor.

Definition same_origin (parsed : Url.URL) (origin : string) : Res bool :=
  do allowed <- URL_new origin None;
  Ok (String.eqb (Url.protocol parsed) (Url.protocol allowed)
      && String.eqb (Url.hostname parsed) (Url.hostname allowed)).

Definition isValidRedirectUrl (url : string) (allowedOrigins : list string)
    : bool :=
  catch_with
    (do parsed <- URL_new url (Some "http://localhost");
     someM (same_origin parsed) allowedOrigins)
    (fun _ => false).
End Redirect.

(** *** Input sanitising *)

Definition sanitizeInput (input : value) : string :=
  match input with
  | VStr s =>
      JsStr.replace_all "/" "&#x2F;"
        (JsStr.replace_all "'" "&#x27;"
           (JsStr.replace_all JsStr.dquote "&quot;"
              (JsStr.replace_all ">" "&gt;"
                 (JsStr.replace_all "<" "&lt;"
                    (JsStr.replace_all "&" "&amp;" s)))))
  | _ => ""
  end.

End Security.

(** ** Configuration gate: the library (src/lib/env-validation.ts) *)

Module EnvValidation.
Import Js.

Record EnvVarConfig := {
  required : bool;
  validate : string -> bool;
  errorMessage : string;
  description : string
}.

Record ValidationError := { variable : string; message : string }.

Record ValidationResult := {
  isValid : bool;
  errors : list ValidationError;
  warnings : list string;
  missingVariables : list string
}.

(** [/^G-[A-Z0-9]+$/.test(value)] *)
Definition is_ga_id (value : string) : bool :=
  match value with
  | String "G" (String "-" rest) =>
      negb (String.eqb rest "") &&
      JsStr.all_chars
        (fun c => JsStr.in_range 65 90 c || JsStr.in_range 48 57 c) rest
  | _ => false
  end.

Section Table.
Variable URL_new : Url.Constructor.

(** [try { new URL(value); return true } catch { return false }] *)
Definition is_url (value : string) : bool :=
  catch_with (bind (URL_new value None) (fun _ => Ok true)) (fun _ => false).

Definition REQUIRED_ENV_VARS : list (string * EnvVarConfig) :=
  [("WPGRAPHQL_ENDPOINT",
    {| required := true; validate := is_url;
       errorMessage := "Must be a valid URL to WordPress GraphQL endpoint";
       description := "WordPress GraphQL API endpoint URL" |});
   ("REVALIDATE_SECRET",
    {| required := true;
       validate := fun value => (8 <=? String.length value)%nat;
       errorMessage := "Must be at least 8 characters long";
       description := "Secret key for ISR/on-demand revalidation" |});
   ("SITE_URL",
    {| required := true; validate := is_url;
       errorMessage := "Must be a valid URL";
       description := "Production site URL" |});
   ("SITE_TITLE",
    {| required := true;
       validate := fun value => (0 <? String.length value)%nat;
       errorMessage := "Cannot be empty";
       description := "Website title" |});
   ("SITE_DESCRIPTION",
    {| required := true;
       validate := fun value => (0 <? String.length value)%nat;
       errorMessage := "Cannot be empty";
       description := "Website description" |});
   ("SITE_NAME",
    {| required := true;
       validate := fun value => (0 <? String.length value)%nat;
       errorMessage := "Cannot be empty";
       description := "Website name" |});
   ("SITE_COPYRIGHT",
    {| required := true;
       validate := fun value => (0 <? String.length value)%nat;
       errorMessage := "Cannot be empty";
       description := "Copyright notice" |});
   ("PUBLIC_GA_ID",
    {| required := false; validate := is_ga_id;
       errorMessage := "Must be in format G-XXXXXXXXXX";
       description := "Google Analytics 4 ID" |});
   ("PUBLIC_GA_DEBUG",
    {| required := false;
       validate := fun value =>
         existsb (String.eqb (JsStr.toLowerCase value)) ["true"; "false"];
       errorMessage :=
         "Must be " +:+ JsStr.quoted "true" +:+ " or " +:+ JsStr.quoted "false";
       description := "Enable GA debug logging" |})].
End Table.

(** The three arrays the loop fills, and [invoked]: the variables whose
    [validate] the loop has called, in order (a record of the calls, not a
    variable of the source). *)
Record Collected := {
  c_errors : list ValidationError;
  c_warnings : list string;
  c_missing : list string;
  invoked : list string
}.

Definition nothing : Collected :=
  {| c_errors := []; c_warnings := []; c_missing := []; invoked := [] |}.

(** [!value || value.trim() === ''] *)
Definition unset (value : option string) : bool :=
  match value with
  | None => true
  | Some v => String.eqb v "" || String.eqb (JsStr.trim v) ""
  end.

(** One iteration of [for (const [varName, config] of Object.entries(...))]. *)
Definition check_variable (vars : gmap string string) (st : Collected)
    (entry : string * EnvVarConfig) : Collected :=
  let '(varName, config) := entry in
  let value := vars !! varName in
  if unset value then
    if required config then
      {| c_errors := c_errors st ++
           [{| variable := varName;
               message := "Required environment variable missing: " +:+ varName
                          +:+ " (" +:+ description config +:+ ")" |}];
         c_warnings := c_warnings st;
         c_missing := c_missing st ++ [varName];
         invoked := invoked st |}
    else
      {| c_errors := c_errors st;
         c_warnings := c_warnings st ++ ["Optional variable not set: " +:+ varName];
         c_missing := c_missing st;
         invoked := invoked st |}
  else
    let ok := validate config (default "" value) in
    {| c_errors :=
         if ok then c_errors st
         else c_errors st ++
                [{| variable := varName;
                    message := "Invalid value for " +:+ varName +:+ ": "
                               +:+ errorMessage config |}];
       c_warnings := c_warnings st;
       c_missing := c_missing st;
       invoked := invoked st ++ [varName] |}.

Definition run (table : list (string * EnvVarConfig))
    (vars : gmap string string) : Collected :=
  fold_left (check_variable vars) table nothing.

Definition result_of (st : Collected) : ValidationResult :=
  {| isValid := Nat.eqb (length (c_errors st)) 0;
     errors := c_errors st;
     warnings := c_warnings st;
     missingVariables := c_missing st |}.

(** [validateEnvVars] over a table; the source iterates
    [REQUIRED_ENV_VARS]. *)
Definition validateEnvVarsWith (table : list (string * EnvVarConfig))
    (vars : gmap string string) : ValidationResult :=
  result_of (run table vars).

Definition validateEnvVars (URL_new : Url.Constructor)
    (vars : gmap string string) : ValidationResult :=
  validateEnvVarsWith (REQUIRED_ENV_VARS URL_new) vars.

End EnvValidation.

(** ** Configuration gate: the build script (scripts/validate-env.js) *)

Module ValidateEnvScript.
Import Js.

(** An entry of the script's table: [validate] and [errorMessage] are
    looked up with a guard, so either may be absent. [validate] gives the
    truth value of what the validator returns. *)
Record EnvVarConfig := {
  required : bool;
  validate : option (string -> bool);
  errorMessage : option string
}.

Record ValidationError := { variable : string; message : string }.

Record ValidationResult := {
  isValid : bool;
  errors : list ValidationError;
  warnings : list string;
  missingVariables : list string
}.

Definition nonempty (value : string) : bool := negb (String.eqb value "").

Section Table.
Variable URL_new : Url.Constructor.

Definition is_url (value : string) : bool :=
  catch_with (bind (URL_new value None) (fun _ => Ok true)) (fun _ => false).

Definition REQUIRED_ENV_VARS : list (string * EnvVarConfig) :=
  [("WPGRAPHQL_ENDPOINT",
    {| required := true; validate := Some is_url;
       errorMessage := Some "Must be a valid URL to WordPress GraphQL endpoint" |});
   ("REVALIDATE_SECRET",
    {| required := true;
       validate := Some (fun value =>
         nonempty value && (8 <=? String.length value)%nat);
       errorMessage := Some "Must be at least 8 characters long" |});
   ("SITE_URL",
    {| required := true; validate := Some is_url;
       errorMessage := Some "Must be a valid URL" |});
   ("SITE_TITLE",
    {| required := true;
       validate := Some (fun value =>
         nonempty value && (0 <? String.length value)%nat);
       errorMessage := Some "Cannot be empty" |});
   ("SITE_DESCRIPTION",
    {| required := true;
       validate := Some (fun value =>
         nonempty value && (0 <? String.length value)%nat);
       errorMessage := Some "Cannot be empty" |});
   ("SITE_NAME",
    {| required := true;
       validate := Some (fun value =>
         nonempty value && (0 <? String.length value)%nat);
       errorMessage := Some "Cannot be empty" |});
   ("SITE_COPYRIGHT",
    {| required := true;
       validate := Some (fun value =>
         nonempty value && (0 <? String.length value)%nat);
       errorMessage := Some "Cannot be empty" |});
   ("NEXT_PUBLIC_GA_MEASUREMENT_ID",
    {| required := false;
       validate := Some (fun value =>
         negb (nonempty value) || EnvValidation.is_ga_id value);
       errorMessage := Some "Must be in format G-XXXXXXXXXX" |});
   ("PUBLIC_GA_DEBUG",
    {| required := false;
       validate := Some (fun value =>
         negb (nonempty value)
         || existsb (String.eqb value) ["true"; "false"]);
       errorMessage :=
         Some ("Must be " +:+ JsStr.quoted "true" +:+ " or "
               +:+ JsStr.quoted "false") |})].
End Table.

(** The arrays the loop fills, and the record of the calls of [validate]. *)
Record Collected := {
  c_errors : list ValidationError;
  c_missing : list string;
  invoked : list string
}.

Definition nothing : Collected :=
  {| c_errors := []; c_missing := []; invoked := [] |}.

(** [value === undefined || value === ''], and [!value || value === '']. *)
Definition unset (value : option string) : bool :=
  match value with
  | None => true
  | Some v => String.eqb v ""
  end.

(** [config.errorMessage || `Invalid value for ${varName}`] *)
Definition message_of (config : EnvVarConfig) (varName : string) : string :=
  match errorMessage config with
  | Some m => if nonempty m then m else "Invalid value for " +:+ varName
  | None => "Invalid value for " +:+ varName
  end.

Definition check_variable (vars : gmap string string) (st : Collected)
    (entry : string * EnvVarConfig) : Collected :=
  let '(varName, config) := entry in
  let value := vars !! varName in
  if required config && unset value then
    {| c_errors := c_errors st;
       c_missing := c_missing st ++ [varName];
       invoked := invoked st |}
  else if negb (required config) && unset value then st
  else
    match validate config with
    | Some v =>
        {| c_errors :=
             if v (default "" value) then c_errors st
             else c_errors st ++
                    [{| variable := varName;
                        message := message_of config varName |}];
           c_missing := c_missing st;
           invoked := invoked st ++ [varName] |}
    | None => st
    end.

Definition run (table : list (string * EnvVarConfig))
    (vars : gmap string string) : Collected :=
  fold_left (check_variable vars) table nothing.

Definition result_of (st : Collected) : ValidationResult :=
  {| isValid := Nat.eqb (length (c_errors st)) 0
                && Nat.eqb (length (c_missing st)) 0;
     errors := c_errors st;
     warnings := [];
     missingVariables := c_missing st |}.

Definition validateEnvVarsWith (table : list (string * EnvVarConfig))
    (vars : gmap string string) : ValidationResult :=
  result_of (run table vars).

Definition validateEnvVars (URL_new : Url.Constructor)
    (vars : gmap string string) : ValidationResult :=
  validateEnvVarsWith (REQUIRED_ENV_VARS URL_new) vars.

End ValidateEnvScript.

(** ** Edge request interceptor (src/middleware.ts) *)

Module Middleware.

(** A [Headers] object: header names are case-insensitive, so the map is
    keyed by the lower-case name. *)
Definition headers_set (k v : string) (h : gmap string string)
    : gmap string string :=
  <[JsStr.toLowerCase k := v]> h.

Definition headers_get (k : string) (h : gmap string string) : option string :=
  h !! JsStr.toLowerCase k.

(** [pathname.match(/\.(js|css|png|jpg|jpeg|svg|gif|webp)$/)] *)
Definition is_static_asset (pathname : string) : bool :=
  existsb (fun ext => JsStr.endsWith pathname ("." +:+ ext))
    ["js"; "css"; "png"; "jpg"; "jpeg"; "svg"; "gif"; "webp"].

Definition cache_control_for (pathname : string) : string :=
  if is_static_asset pathname then "public, max-age=31536000, immutable"
  else if JsStr.startsWith pathname "/api/" then "public, max-age=300, s-maxage=300"
  else "public, max-age=3600, s-maxage=86400".

(** The headers of the returned response; [fresh] are the headers of
    [NextResponse.next()]. *)
Definition middleware (fresh : gmap string string) (pathname : string)
    : gmap string string :=
  let response :=
    fold_left (fun h entry => headers_set (fst entry) (snd entry) h)
      Security.SECURITY_HEADERS fresh in
  headers_set "Cache-Control" (cache_control_for pathname) response.

End Middleware.

(** ** Vocabulary of the statements

    What the properties below are stated with: the expected renderings,
    upstreams and pages for the gateway, and a base64 decoder and example
    upstreams for evaluating the code on concrete inputs. *)

Section Vocabulary.
Import Js Api CacheHeaders Security.

(** The optional last clause of the header value. *)
Definition stale_if_error_clause (config : CacheConfig) : string :=
  match staleIfError config with
  | Some n => if (n =? 0)%Z then "" else ", stale-if-error=" +:+ JsStr.of_Z n
  | None => ""
  end.

(** The directives after [script-src], as the header carries them. *)
Definition csp_tail : string :=
  "; style-src 'self' 'unsafe-inline' https://fonts.googleapis.com https://cdn.jsdelivr.net"
  +:+ "; font-src 'self' https://fonts.gstatic.com data:"
  +:+ "; img-src 'self' data: https: https://www.googletagmanager.com https://www.google-analytics.com https://www.facebook.com"
  +:+ "; connect-src 'self' https://www.google-analytics.com https://www.googletagmanager.com https://region1.google-analytics.com process.env.WPGRAPHQL_ENDPOINT"
  +:+ "; frame-src 'none'; object-src 'none'; media-src 'self'; default-src 'self'; form-action 'self'; frame-ancestors 'none'; upgrade-insecure-requests".

(** What one character becomes. *)
Definition escape (c : ascii) : string :=
  if Ascii.eqb c "&" then "&amp;"
  else if Ascii.eqb c "<" then "&lt;"
  else if Ascii.eqb c ">" then "&gt;"
  else if Ascii.eqb c JsStr.dquote then "&quot;"
  else if Ascii.eqb c "'" then "&#x27;"
  else if Ascii.eqb c "/" then "&#x2F;"
  else String c "".

Fixpoint escape_all (s : string) : string :=
  match s with
  | EmptyString => EmptyString
  | String c r => escape c +:+ escape_all r
  end.

Definition raw (c : ascii) : bool :=
  Ascii.eqb c "<" || Ascii.eqb c ">" || Ascii.eqb c JsStr.dquote
  || Ascii.eqb c "'" || Ascii.eqb c "/".

(** No character of [s] is one of the raw ones. *)
Definition no_raw (s : string) : bool :=
  JsStr.all_chars (fun c => negb (raw c)) s.

Definition entities : list string :=
  ["&amp;"; "&lt;"; "&gt;"; "&quot;"; "&#x27;"; "&#x2F;"].

(** Every ampersand of [s] opens one of the six entities. *)
Fixpoint amps_escaped (s : string) : bool :=
  match s with
  | EmptyString => true
  | String c r =>
      (if Ascii.eqb c "&" then existsb (fun e => String.prefix e s) entities
       else true)
      && amps_escaped r
  end.

(** The first request of an operation, the query [q] with these variables,
    throws [e]. *)
Definition raises (up : Upstream) (q : Query)
    (variables : list (string * value)) (e : exn) : Prop :=
  up 0%nat q (VObj variables) = Throw e.

(** An upstream that throws [e] on every request. *)
Definition failing (e : exn) : Upstream := fun _ _ _ => Throw e.





(** The test of the filter, on a post whose [id] can be read. *)
Definition kept (excludeId : string) (post : value) : bool :=
  match prop post "id" with
  | Ok id => strict_ne_str id excludeId
  | Throw _ => false
  end.



(** A page as the list query returns it: the posts (each an object), and the
    page information. *)
Record Page := {
  nodes : list (list (string * Js.value));
  hasNextPage : bool;
  endCursor : option string
}.

Definition cursor_value (p : Page) : Js.value :=
  match endCursor p with
  | Some c => Js.VStr c
  | None => Js.VNull
  end.

Definition encode_page (p : Page) : Js.value :=
  Js.VObj
    [("posts",
      Js.VObj [("nodes", Js.VArr (map Js.VObj (nodes p)));
               ("pageInfo",
                Js.VObj [("hasNextPage", Js.VBool (hasNextPage p));
                         ("endCursor", cursor_value p)])])].

(** The upstream answers the request number [n], sent with [after], with the
    first page of the list, and the following requests, each sent with the
    cursor of the page before, with the following pages. *)
Fixpoint serves_from (up : Api.Upstream) (n : nat) (after : Js.value)
    (pages : list Page) : Prop :=
  match pages with
  | [] => True
  | p :: rest =>
      up n Api.GET_ALL_POSTS_SLUGS_QUERY
         (Js.VObj [("first", Js.VNum 100); ("after", after)])
      = Js.Ok (encode_page p)
      /\ serves_from up (S n) (cursor_value p) rest
  end.

Definition posts_of (p : Page) : list Js.value := map Js.VObj (nodes p).

Definition slugs_of_page (p : Page) : list Js.value :=
  map (fun fields => Js.field fields "slug") (nodes p).

(** An upstream that answers request number [n] with page number [n]. *)
Definition scripted (pages : list Page) : Api.Upstream :=
  fun n _ _ =>
    match nth_error pages n with
    | Some p => Js.Ok (encode_page p)
    | None => Js.Throw (Js.RequestError "no such page")
    end.

(** An upstream that claims more pages and gives no cursor, every time. *)
Definition stuck : Api.Upstream :=
  fun _ _ _ =>
    Js.Ok (encode_page {| nodes := [[("slug", Js.VStr "a-post")]];
                          hasNextPage := true;
                          endCursor := None |}).

End Vocabulary.

(** * More of the code *)

(** ** Text utilities (src/lib/api.ts) *)

Module ApiText.

(** [html.replace(/<[^>]*>/g, '')]: outside a tag ([tag = None]) a character
    is kept and [<] opens a candidate tag; inside one ([tag = Some buf], with
    [buf] the text read since that [<]) a [>] closes the tag, which is
    dropped, and any other character, a [<] included, is added to [buf].
    A candidate that the end of the text leaves open has no match, nor has
    anything inside it: [buf] is kept. *)
Fixpoint strip_tags_from (s : string) (tag : option string) : string :=
  match s with
  | EmptyString => default "" tag
  | String c r =>
      match tag with
      | None =>
          if Ascii.eqb c "<" then strip_tags_from r (Some "<")
          else String c (strip_tags_from r None)
      | Some buf =>
          if Ascii.eqb c ">" then strip_tags_from r None
          else strip_tags_from r (Some (buf +:+ String c ""))
      end
  end.

Definition stripHtml (html : option string) : string :=
  match html with
  | None => ""
  | Some s => if String.eqb s "" then "" else strip_tags_from s None
  end.

(** [length] is an integer here; the default of the source is 160. *)
Definition truncateText (text : option string) (length : Z) : string :=
  match text with
  | None => ""
  | Some s =>
      if String.eqb s "" then ""
      else if (Z.of_nat (String.length s) <=? length)%Z then s
      else JsStr.trim (String.substring 0 (Z.to_nat length) s) +:+ "..."
  end.

End ApiText.

(** ** Cache classes and tags (src/lib/cacheHeaders.ts) *)

Module CachePolicy.
Import CacheHeaders.

Definition getCacheConfigForContentType (contentType : string) : CacheConfig :=
  if JsStr.includes contentType "text/html" then html
  else if JsStr.includes contentType "application/javascript"
          || JsStr.includes contentType "text/css" then assets
  else if JsStr.includes contentType "image/" then images
  else if JsStr.includes contentType "application/json" then api
  else api.

Definition generateCacheTags (pathOrContext : string) : list string :=
  let tags : list string := [] in
  let tags :=
    if JsStr.includes pathOrContext "/api/" then tags ++ ["api"]
    else if JsStr.includes pathOrContext "/category/"
         then tags ++ ["category"; "posts"]
    else if JsStr.includes pathOrContext "/author/"
         then tags ++ ["author"; "posts"]
    else if JsStr.includes pathOrContext "/tag/" then tags ++ ["tag"; "posts"]
    else if JsStr.includes pathOrContext "/search"
         then tags ++ ["search"; "posts"]
    else if String.eqb pathOrContext "/" || JsStr.includes pathOrContext "/page/"
         then tags ++ ["homepage"; "posts"]
    else if JsStr.includes pathOrContext "." then tags ++ ["assets"]
    else tags in
  tags ++ ["all-content"].

End CachePolicy.

(** ** Nonces, endpoint validation and security logging
    (src/lib/security.ts) *)

Module SecurityOps.
Import Js.

(** What [generateNonce] throws: its own [Error], or what the platform
    throws for an array of more than 65536 bytes, the [QuotaExceededError]
    of [getRandomValues] or, for a length it cannot allocate, the
    [RangeError] of [new Uint8Array]. *)
Inductive thrown : Type :=
| Error (message : string)
| PlatformError.

Inductive outcome : Type :=
| Returned (nonce : string)
| Threw (t : thrown).

Definition hex_digit (d : N) : ascii :=
  nth (N.to_nat d) (list_ascii_of_string "0123456789abcdef") "0"%char.

(** [b.toString(16)] for an element [b] of a [Uint8Array]. *)
Definition byte_toString16 (b : Byte.byte) : string :=
  let n := Byte.to_N b in
  if (n <? 16)%N then String (hex_digit n) ""
  else String (hex_digit (n / 16)) (String (hex_digit (n mod 16)) "").

(** [s.padStart(target, pad)] for a one-character [pad]. *)
Definition padStart (target : nat) (pad : ascii) (s : string) : string :=
  string_of_list_ascii (List.repeat pad (target - String.length s)) +:+ s.

(** [Array.from(array).map((b) => b.toString(16).padStart(2, '0')).join('')] *)
Definition hex_of_bytes (bytes : list Byte.byte) : string :=
  JsStr.join "" (map (fun b => padStart 2 "0" (byte_toString16 b)) bytes).

(** [crypto] is [globalThis.crypto.getRandomValues] when the platform has
    it: the byte it writes at each index of the array. *)
Definition generateNonce (crypto : option (nat -> Byte.byte)) (length : nat)
    : outcome :=
  match crypto with
  | None => Threw (Error "Web Crypto API not available")
  | Some random =>
      if (65536 <? N.of_nat length)%N then Threw PlatformError
      else Returned (hex_of_bytes (map random (seq 0 length)))
  end.

Section Endpoint.
Variable URL_new : Url.Constructor.

Definition validateApiEndpoint (endpoint : string) (isProduction : bool) : bool :=
  catch_with
    (bind (URL_new endpoint None) (fun url =>
       if isProduction && negb (String.eqb (Url.protocol url) "https:")
       then Ok false
       else if isProduction
               && (String.eqb (Url.hostname url) "localhost"
                   || String.eqb (Url.hostname url) "127.0.0.1")
       then Ok false
       else Ok true))
    (fun _ => false).
End Endpoint.

Inductive Severity : Type := low | medium | high | critical.

Definition severity_text (s : Severity) : string :=
  match s with
  | low => "low"
  | medium => "medium"
  | high => "high"
  | critical => "critical"
  end.

Definition upper_char (c : ascii) : ascii :=
  let n := JsStr.code c in
  if ((97 <=? n) && (n <=? 122)
      || (224 <=? n) && (n <=? 254) && negb (n =? 247))%N
  then ascii_of_N (n - 32) else c.

(** [s.toUpperCase()] for a text without sharp s or y with diaeresis. *)
Fixpoint toUpperCase (s : string) : string :=
  match s with
  | EmptyString => EmptyString
  | String c r => String (upper_char c) (toUpperCase r)
  end.

Inductive Console : Type := console_error | console_warn.

(** One call of the console: the method, the first argument and the fields
    of the object passed second. *)
Record LogCall := {
  method : Console;
  label : string;
  timestamp : string;
  eventType : string;
  severity : Severity;
  details : gmap string value
}.

(** [now] is [new Date().toISOString()], [node_env] is
    [process.env.NODE_ENV]. *)
Definition logSecurityEvent (now : string) (node_env : option string)
    (event : string) (event_details : gmap string value) (sev : Severity)
    : LogCall :=
  {| method := if decide (node_env = Some "production")
               then console_error else console_warn;
     label := "[SECURITY] " +:+ toUpperCase (severity_text sev) +:+ ": "
              +:+ event;
     timestamp := now;
     eventType := event;
     severity := sev;
     details :=
       <["apiKey" := VStr "[REDACTED]"]>
         (<["secret" := VStr "[REDACTED]"]>
            (<["token" := VStr "[REDACTED]"]>
               (<["password" := VStr "[REDACTED]"]> event_details))) |}.

End SecurityOps.

(** ** Safe environment and production flag (src/lib/env-validation.ts) *)

Module EnvOps.

(** [if (vars.K) safeVars.K = vars.K] *)
Definition copy_if_set (vars : gmap string string) (k : string)
    (safeVars : gmap string string) : gmap string string :=
  match vars !! k with
  | Some v => if String.eqb v "" then safeVars else <[k := v]> safeVars
  | None => safeVars
  end.

Definition getSafeEnvVars (vars : gmap string string) : gmap string string :=
  let safeVars : gmap string string :=
    filter (fun kv : string * string =>
              JsStr.startsWith (fst kv) "PUBLIC_"
              && negb (String.eqb (snd kv) "") = true) vars in
  let safeVars := copy_if_set vars "SITE_URL" safeVars in
  let safeVars := copy_if_set vars "SITE_TITLE" safeVars in
  let safeVars := copy_if_set vars "SITE_DESCRIPTION" safeVars in
  let safeVars := copy_if_set vars "SITE_NAME" safeVars in
  copy_if_set vars "SITE_COPYRIGHT" safeVars.

(** [node_env] is [process.env.NODE_ENV]. *)
Definition isProduction (node_env : option string) : bool :=
  match node_env with
  | Some env => String.eqb env "production" || String.eqb env "prod"
  | None => false
  end.

End EnvOps.

(** ** The GraphQL client (src/lib/graphql.ts) *)

Module GraphqlClient.

(** What [new GraphQLClient(url, options)] is given. *)
Record Client := {
  url : string;
  headers : list (string * string)
}.

(** The two errors of the initialisation, without the text of their
    messages. *)
Inductive failure : Type :=
| not_configured
| invalid_endpoint (endpoint : string).

Inductive outcome : Type :=
| Created (client : Client)
| Failed (f : failure).

(** [in_browser] is [typeof window !== 'undefined']; [endpoint] is
    [process.env.WPGRAPHQL_ENDPOINT], [node_env] is [process.env.NODE_ENV]. *)
Definition initializeGraphQLClient (URL_new : Url.Constructor)
    (in_browser : bool) (endpoint node_env : option string) : outcome :=
  if in_browser
  then Created {| url := "https://placeholder.local/graphql"; headers := [] |}
  else if EnvValidation.unset endpoint then Failed not_configured
  else if negb (SecurityOps.validateApiEndpoint URL_new (default "" endpoint)
                  (EnvOps.isProduction node_env))
  then Failed (invalid_endpoint (default "" endpoint))
  else Created {| url := default "" endpoint;
                  headers := [("Content-Type", "application/json")] |}.

End GraphqlClient.

(** ** The build script's gate (scripts/validate-env.js) *)

Module ValidateEnvScriptGate.
Import ValidateEnvScript.

Inductive outcome : Type :=
| Passed
| Thrown (message : string).

Definition newline : string := String (ascii_of_N 10) "".

Definition validateEnvVarsOrThrowWith (table : list (string * EnvVarConfig))
    (vars : gmap string string) : outcome :=
  let result := validateEnvVarsWith table vars in
  if negb (isValid result) then
    let errorMessages :=
      ["Environment validation failed:"]
      ++ map (fun v => "- Missing required variable: " +:+ v)
             (missingVariables result)
      ++ map (fun e => "- " +:+ variable e +:+ ": " +:+ message e)
             (errors result) in
    Thrown (JsStr.join newline errorMessages)
  else Passed.

Definition validateEnvVarsOrThrow (URL_new : Url.Constructor)
    (vars : gmap string string) : outcome :=
  validateEnvVarsOrThrowWith (REQUIRED_ENV_VARS URL_new) vars.

End ValidateEnvScriptGate.

(** ** The news sitemap (src/app/sitemap-news/route.ts) *)

Module SitemapNews.

Definition escapeXml (str : string) : string :=
  JsStr.replace_all "'" "&apos;"
    (JsStr.replace_all JsStr.dquote "&quot;"
       (JsStr.replace_all ">" "&gt;"
          (JsStr.replace_all "<" "&lt;"
             (JsStr.replace_all "&" "&amp;" str)))).

End SitemapNews.

(** ** Excerpts as the components show them
    (src/components/HeroSection.tsx, ArticleCard, the article page) *)

Module Excerpts.

(** [a || b] for two texts that may be absent. *)
Definition or_else (a b : option string) : option string :=
  match a with
  | Some s => if String.eqb s "" then b else a
  | None => b
  end.

(** [HeroSection]: [truncateText(stripHtml(post.excerpt || post.content), 200)] *)
Definition HeroSection_excerpt (excerpt content : option string) : string :=
  let excerpt := ApiText.stripHtml (or_else excerpt content) in
  ApiText.truncateText (Some excerpt) 200.

(** [ArticleCard]: [truncateText(stripHtml(excerpt || content), 100)] *)
Definition ArticleCard_excerpt (excerpt content : option string) : string :=
  let articleExcerpt := ApiText.stripHtml (or_else excerpt content) in
  ApiText.truncateText (Some articleExcerpt) 100.

(** The article page:
    [stripHtml(post.excerpt || post.content).substring(0, 160)] *)
Definition generateMetadata_description (excerpt content : option string)
    : string :=
  String.substring 0 160 (ApiText.stripHtml (or_else excerpt content)).

End Excerpts.

(** * Vocabulary of the further properties *)

(** [s] has a [>]. *)
Fixpoint has_gt (s : string) : bool :=
  match s with
  | EmptyString => false
  | String c r => Ascii.eqb c ">" || has_gt r
  end.

(** [s] has a tag: a [<] with a [>] somewhere after it. *)
Fixpoint has_tag (s : string) : bool :=
  match s with
  | EmptyString => false
  | String c r => Ascii.eqb c "<" && has_gt r || has_tag r
  end.

(** A digit or one of [a] to [f]. *)
Definition is_lower_hex (c : ascii) : bool :=
  JsStr.in_range 48 57 c || JsStr.in_range 97 102 c.

(** What a hexadecimal digit in lower case stands for. *)
Definition hex_value (c : ascii) : option N :=
  if JsStr.in_range 48 57 c then Some (JsStr.code c - 48)%N
  else if JsStr.in_range 97 102 c then Some (JsStr.code c - 87)%N
  else None.

(** The bytes that a text of hexadecimal digit pairs stands for. *)
Fixpoint bytes_of_hex (s : string) : option (list Byte.byte) :=
  match s with
  | EmptyString => Some []
  | String h (String l r) =>
      match hex_value h, hex_value l, bytes_of_hex r with
      | Some a, Some b, Some rest =>
          option_map (fun x => x :: rest) (Byte.of_N (16 * a + b))
      | _, _, _ => None
      end
  | _ => None
  end.

(** [s] has no [$]. *)
Definition no_dollar (s : string) : bool :=
  JsStr.all_chars (fun c => negb (Ascii.eqb c "$")) s.

(** The library reports the entry as missing, and as invalid. *)
Definition lib_missing (vars : gmap string string)
    (entry : string * EnvValidation.EnvVarConfig) : bool :=
  EnvValidation.unset (vars !! fst entry) && EnvValidation.required (snd entry).

Definition lib_invalid (vars : gmap string string)
    (entry : string * EnvValidation.EnvVarConfig) : bool :=
  negb (EnvValidation.unset (vars !! fst entry))
  && negb (EnvValidation.validate (snd entry) (default "" (vars !! fst entry))).

Definition lib_optional_unset (vars : gmap string string)
    (entry : string * EnvValidation.EnvVarConfig) : bool :=
  EnvValidation.unset (vars !! fst entry)
  && negb (EnvValidation.required (snd entry)).

(** The script reports the entry as missing, and as invalid. *)
Definition script_missing (vars : gmap string string)
    (entry : string * ValidateEnvScript.EnvVarConfig) : bool :=
  ValidateEnvScript.required (snd entry)
  && ValidateEnvScript.unset (vars !! fst entry).

Definition script_invalid (vars : gmap string string)
    (entry : string * ValidateEnvScript.EnvVarConfig) : bool :=
  negb (ValidateEnvScript.unset (vars !! fst entry))
  && match ValidateEnvScript.validate (snd entry) with
     | Some v => negb (v (default "" (vars !! fst entry)))
     | None => false
     end.

(** An environment that sets the seven required variables. *)
Definition example_environment : gmap string string :=
  <["WPGRAPHQL_ENDPOINT" := "http://cms.example.com/graphql"]>
    (<["REVALIDATE_SECRET" := "0123456789"]>
       (<["SITE_URL" := "https://news.example.com"]>
          (<["SITE_TITLE" := "News"]>
             (<["SITE_DESCRIPTION" := "All the news"]>
                (<["SITE_NAME" := "News"]>
                   (<["SITE_COPYRIGHT" := "News Ltd"]> ∅)))))).

(** The entity of each of the five characters, character by character. *)
Definition xml_escape (c : ascii) : string :=
  if Ascii.eqb c "&" then "&amp;"
  else if Ascii.eqb c "<" then "&lt;"
  else if Ascii.eqb c ">" then "&gt;"
  else if Ascii.eqb c JsStr.dquote then "&quot;"
  else if Ascii.eqb c "'" then "&apos;"
  else String c "".

Fixpoint xml_escape_all (s : string) : string :=
  match s with
  | EmptyString => EmptyString
  | String c r => xml_escape c +:+ xml_escape_all r
  end.

(** One of the five characters that XML gives a meaning to. *)
Definition xml_special (c : ascii) : bool :=
  Ascii.eqb c "&" || Ascii.eqb c "<" || Ascii.eqb c ">"
  || Ascii.eqb c JsStr.dquote || Ascii.eqb c "'".

(** [s] has no [<], [>], double quote or ['], and each of its ampersands
    opens one of the five entities. *)
Fixpoint xml_safe (s : string) : bool :=
  match s with
  | EmptyString => true
  | String c r =>
      (if Ascii.eqb c "&"
       then existsb (fun e => String.prefix e s)
              ["&amp;"; "&lt;"; "&gt;"; "&quot;"; "&apos;"]
       else negb (xml_special c))
      && xml_safe r
  end.

(** The names the middleware sets, as a [Headers] object keeps them. *)
Definition security_header_names : list string :=
  map (fun entry => JsStr.toLowerCase (fst entry)) Security.SECURITY_HEADERS.

(** * Properties *)

#[local] Arguments String.append !_ _ : simpl nomatch.

(** ** Strings *)

Section StringFacts.

Lemma append_assoc (a b c : string) : (a +:+ b) +:+ c = a +:+ (b +:+ c).
Proof. induction a as [|x a IH]; simpl; [reflexivity | now rewrite IH]. Qed.

Lemma append_empty_r (a : string) : a +:+ "" = a.
Proof. induction a as [|x a IH]; simpl; [reflexivity | now rewrite IH]. Qed.

Lemma prefix_empty_l (s : string) : String.prefix "" s = true.
Proof. destruct s; reflexivity. Qed.

Lemma replace_all_append (c : ascii) (by_ a b : string) :
  JsStr.replace_all c by_ (a +:+ b)
  = JsStr.replace_all c by_ a +:+ JsStr.replace_all c by_ b.
Proof.
  induction a as [|x a IH]; simpl; [reflexivity|].
  destruct (Ascii.eqb x c); rewrite IH; [now rewrite append_assoc | reflexivity].
Qed.

Lemma rev_app_spec (a b : string) :
  String.rev_app a b = String.rev a +:+ b.
Proof.
  unfold String.rev. revert b.
  induction a as [|x a IH]; intros b; simpl; [reflexivity|].
  rewrite IH, (IH (String x "")), append_assoc. reflexivity.
Qed.

Lemma rev_append (a b : string) :
  String.rev (a +:+ b) = String.rev b +:+ String.rev a.
Proof.
  induction a as [|x a IH]; simpl.
  - now rewrite append_empty_r.
  - unfold String.rev in *. simpl.
    rewrite (rev_app_spec (a +:+ b)), (rev_app_spec a).
    unfold String.rev. rewrite IH, append_assoc. reflexivity.
Qed.

Lemma rev_involutive (a : string) : String.rev (String.rev a) = a.
Proof.
  induction a as [|x a IH]; [reflexivity|].
  change (String x a) with (String x "" +:+ a) at 1.
  rewrite rev_append, rev_append, IH. reflexivity.
Qed.

Lemma prefix_append (p b : string) : String.prefix p (p +:+ b) = true.
Proof.
  induction p as [|c p IH]; simpl; [apply prefix_empty_l|].
  destruct (ascii_dec c c); [exact IH | contradiction].
Qed.

Lemma prefix_iff (p s : string) :
  String.prefix p s = true <-> exists rest, s = p +:+ rest.
Proof.
  split.
  - revert s. induction p as [|c p IH]; intros s H; [now exists s|].
    destruct s as [|d s]; [discriminate|]. simpl in H.
    destruct (ascii_dec c d) as [->|]; [|discriminate].
    destruct (IH s H) as [rest ->]. now exists rest.
  - intros [rest ->]. apply prefix_append.
Qed.

Lemma startsWith_iff (s p : string) :
  JsStr.startsWith s p = true <-> exists rest, s = p +:+ rest.
Proof. apply prefix_iff. Qed.

Lemma endsWith_iff (s p : string) :
  JsStr.endsWith s p = true <-> exists stem, s = stem +:+ p.
Proof.
  unfold JsStr.endsWith. rewrite prefix_iff. split.
  - intros [rest H]. exists (String.rev rest).
    rewrite <- (rev_involutive s), H, rev_append, rev_involutive.
    reflexivity.
  - intros [stem ->]. exists (String.rev stem). apply rev_append.
Qed.

End StringFacts.

(** ** Cache policy engine *)

Section CacheHeadersFacts.
Import CacheHeaders.

(** C8. [formatCacheControl] renders [public], [max-age], [s-maxage] and
    [stale-while-revalidate] in that order, separated by a comma and a
    space, and appends the [stale-if-error] clause only for a directive
    that has the field (and then when it is not zero). On the table, the
    asset class gives a value with [max-age=31536000] and without
    [stale-if-error], and the page class gives all four clauses with
    3600, 86400, 604800 and 2592000. *)
Theorem formatCacheControl_renders :
  (forall config,
      formatCacheControl config
      = "public, max-age=" +:+ JsStr.of_Z (maxAge config)
        +:+ ", s-maxage=" +:+ JsStr.of_Z (sMaxAge config)
        +:+ ", stale-while-revalidate="
        +:+ JsStr.of_Z (staleWhileRevalidate config)
        +:+ stale_if_error_clause config)
  /\ (forall config,
         staleIfError config = None ->
         stale_if_error_clause config = "")
  /\ (forall config n,
         staleIfError config = Some n -> n <> 0%Z ->
         stale_if_error_clause config = ", stale-if-error=" +:+ JsStr.of_Z n)
  /\ lookup 1%nat CACHE_CONFIGS = Some ("assets", assets)
  /\ formatCacheControl assets
     = "public, max-age=31536000, s-maxage=31536000, stale-while-revalidate=31536000"
  /\ JsStr.includes (formatCacheControl assets) "max-age=31536000" = true
  /\ JsStr.includes (formatCacheControl assets) "stale-if-error" = false
  /\ lookup 0%nat CACHE_CONFIGS = Some ("html", html)
  /\ formatCacheControl html
     = "public, max-age=3600, s-maxage=86400, stale-while-revalidate=604800, stale-if-error=2592000".
Proof.
  split; [|split; [|split; [|repeat split; reflexivity]]].
  - intros [a b c [n|]]; unfold formatCacheControl, stale_if_error_clause;
      cbn [staleIfError maxAge sMaxAge staleWhileRevalidate truthy_number default];
      [destruct (n =? 0)%Z|]; cbn [negb app JsStr.join];
      cbn [append]; rewrite ?append_assoc; cbn [append];
      rewrite ?append_empty_r; reflexivity.
  - intros config H. unfold stale_if_error_clause. now rewrite H.
  - intros config n H Hn. unfold stale_if_error_clause. rewrite H.
    destruct (Z.eqb_spec n 0); [contradiction | reflexivity].
Qed.

(** C8, at the two classes of the table. *)
Lemma formatCacheControl_renders_witness :
  stale_if_error_clause assets = ""
  /\ stale_if_error_clause html = ", stale-if-error=2592000".
Proof.
  destruct formatCacheControl_renders as (_ & Habsent & Hpresent & _).
  split.
  - apply Habsent. reflexivity.
  - apply (Hpresent html 2592000%Z); [reflexivity | lia].
Defined.

End CacheHeadersFacts.

(** ** Reading time *)

Section ReadingTimeFacts.
Import Api.

Lemma split_ws_from_nonempty (s cur : string) (in_ws : bool) :
  (1 <= length (JsStr.split_ws_from s cur in_ws))%nat.
Proof.
  revert cur in_ws.
  induction s as [|c s IH]; intros cur in_ws; simpl; [lia|].
  destruct (JsStr.is_space c); [destruct in_ws|]; simpl; auto with arith.
Qed.

(** C7. [calculateReadingTime] is at least 1 on every input and is 1 on an
    absent one, but the count it divides is the number of pieces of
    [split(/\s+/)], which is one more than the number of words when the
    text ends in white space: 400 words, each followed by a space, give
    401 pieces and a reading time of 3; without the last space they give
    400 pieces and 2. *)
Theorem calculateReadingTime_counts_pieces :
  calculateReadingTime None = 1%Z
  /\ (forall content, (1 <= calculateReadingTime content)%Z)
  /\ length (JsStr.split_ws (JsStr.repeat "word " 400)) = 401%nat
  /\ calculateReadingTime (Some (JsStr.repeat "word " 400)) = 3%Z
  /\ calculateReadingTime (Some (JsStr.repeat "word " 399 +:+ "word")) = 2%Z.
Proof.
  split; [reflexivity|].
  split; [|repeat split; vm_compute; reflexivity].
  intros [s|]; unfold calculateReadingTime; [|lia].
  destruct (String.eqb s ""); [lia|].
  pose proof (split_ws_from_nonempty s "" false) as H.
  fold (JsStr.split_ws s) in H.
  apply Z.div_le_lower_bound; lia.
Qed.

End ReadingTimeFacts.

(** ** Content security policy *)

Section CspFacts.
Import Security.

Lemma includes_append_r (a b p : string) :
  JsStr.includes b p = true -> JsStr.includes (a +:+ b) p = true.
Proof.
  intros H. induction a as [|x a IH]; simpl; [exact H|].
  rewrite IH. apply orb_true_r.
Qed.

(** C10. For every nonce, supplied or not, the header built from
    [CSP_HEADERS] is the [script-src] directive followed by a text that
    does not depend on the nonce, in which the [connect-src] directive
    ends with the token [process.env.WPGRAPHQL_ENDPOINT], exactly as
    configured: the callback returns that token unchanged. *)
Theorem buildCSPHeader_keeps_env_placeholder (nonce : option string) :
  render_source nonce "process.env.WPGRAPHQL_ENDPOINT"
  = "process.env.WPGRAPHQL_ENDPOINT"
  /\ buildCSPHeader CSP_HEADERS nonce
     = render_directive nonce
         ("script-src",
          ["'self'"; "'nonce-{NONCE}'"; "https://www.googletagmanager.com";
           "https://www.google-analytics.com"; "https://cdn.jsdelivr.net"])
       +:+ csp_tail
  /\ JsStr.includes (buildCSPHeader CSP_HEADERS nonce)
       "; connect-src 'self' https://www.google-analytics.com https://www.googletagmanager.com https://region1.google-analytics.com process.env.WPGRAPHQL_ENDPOINT; "
     = true.
Proof.
  assert (Hsrc : render_source nonce "process.env.WPGRAPHQL_ENDPOINT"
                 = "process.env.WPGRAPHQL_ENDPOINT")
    by (destruct nonce; reflexivity).
  assert (Hbuild : buildCSPHeader CSP_HEADERS nonce
     = render_directive nonce
         ("script-src",
          ["'self'"; "'nonce-{NONCE}'"; "https://www.googletagmanager.com";
           "https://www.google-analytics.com"; "https://cdn.jsdelivr.net"])
       +:+ csp_tail).
  { unfold buildCSPHeader, CSP_HEADERS. rewrite map_cons.
    match goal with
    | |- JsStr.join _ (?d :: ?rest) = _ =>
        change (JsStr.join "; " (d :: rest))
          with (d +:+ "; " +:+ JsStr.join "; " rest)
    end.
    apply (f_equal (String.append _)).
    destruct nonce; vm_compute; reflexivity. }
  split; [exact Hsrc|]. split; [exact Hbuild|].
  rewrite Hbuild. apply includes_append_r. vm_compute. reflexivity.
Qed.

End CspFacts.

(** ** Edge request interceptor *)

Section MiddlewareFacts.
Import Middleware.

Ltac other_header :=
  rewrite lookup_insert_ne by (vm_compute; discriminate).

Lemma cache_control_for_cases (pathname : string) :
  cache_control_for pathname
  = (if is_static_asset pathname then "public, max-age=31536000, immutable"
     else if JsStr.startsWith pathname "/api/"
          then "public, max-age=300, s-maxage=300"
          else "public, max-age=3600, s-maxage=86400").
Proof. reflexivity. Qed.

Lemma is_static_asset_iff (pathname : string) :
  is_static_asset pathname = true <->
  exists stem ext,
    In ext ["js"; "css"; "png"; "jpg"; "jpeg"; "svg"; "gif"; "webp"]
    /\ pathname = stem +:+ "." +:+ ext.
Proof.
  unfold is_static_asset. rewrite existsb_exists. split.
  - intros (ext & Hin & Hends).
    apply endsWith_iff in Hends as [stem ->]. eauto.
  - intros (stem & ext & Hin & ->). exists ext. split; [exact Hin|].
    apply endsWith_iff. eauto.
Qed.

(** C9. Whatever headers the fresh response has and whatever the path,
    the response the middleware returns has every header of
    [SECURITY_HEADERS]: each one other than [Cache-Control] with the value
    of the table, and [Cache-Control] with the one of three values that
    the path selects. A path that ends in a dot and one of [js], [css],
    [png], [jpg], [jpeg], [svg], [gif] and [webp] gets the asset value, also
    under [/api/]; any other path gets the API value when it starts with
    [/api/] and the page value when it does not. The [Cache-Control] value
    of the table is overwritten: on a path that is not an asset the response
    does not carry it. *)
Theorem middleware_headers (fresh : gmap string string) (pathname : string) :
  Forall (fun entry =>
            fst entry <> "Cache-Control" /\
            headers_get (fst entry) (middleware fresh pathname)
            = Some (snd entry)
            \/ fst entry = "Cache-Control" /\
               headers_get (fst entry) (middleware fresh pathname)
               = Some (cache_control_for pathname))
         Security.SECURITY_HEADERS
  /\ headers_get "Cache-Control" (middleware fresh pathname)
     = Some (if is_static_asset pathname
             then "public, max-age=31536000, immutable"
             else if JsStr.startsWith pathname "/api/"
                  then "public, max-age=300, s-maxage=300"
                  else "public, max-age=3600, s-maxage=86400")
  /\ In ("Cache-Control", "public, max-age=31536000, immutable")
       Security.SECURITY_HEADERS
  /\ (if is_static_asset pathname then True
      else headers_get "Cache-Control" (middleware fresh pathname)
           <> Some "public, max-age=31536000, immutable")
  /\ ((exists stem ext,
          In ext ["js"; "css"; "png"; "jpg"; "jpeg"; "svg"; "gif"; "webp"]
          /\ pathname = stem +:+ "." +:+ ext) ->
      headers_get "Cache-Control" (middleware fresh pathname)
      = Some "public, max-age=31536000, immutable")
  /\ ((forall stem ext,
          In ext ["js"; "css"; "png"; "jpg"; "jpeg"; "svg"; "gif"; "webp"] ->
          pathname <> stem +:+ "." +:+ ext) ->
      (forall rest,
          pathname = "/api/" +:+ rest ->
          headers_get "Cache-Control" (middleware fresh pathname)
          = Some "public, max-age=300, s-maxage=300")
      /\ ((forall rest, pathname <> "/api/" +:+ rest) ->
          headers_get "Cache-Control" (middleware fresh pathname)
          = Some "public, max-age=3600, s-maxage=86400")).
Proof.
  assert (Hcc : headers_get "Cache-Control" (middleware fresh pathname)
                = Some (cache_control_for pathname)).
  { unfold headers_get, middleware, headers_set. apply lookup_insert_eq. }
  split.
  { unfold Security.SECURITY_HEADERS.
    repeat (apply Forall_cons; split;
            [ first
                [ right; split; [reflexivity | exact Hcc]
                | left; split; [discriminate|];
                  unfold headers_get, middleware, headers_set,
                    Security.SECURITY_HEADERS;
                  cbn [fold_left fst snd];
                  repeat other_header; apply lookup_insert_eq ]
            | ]).
    constructor. }
  split; [rewrite Hcc, cache_control_for_cases; reflexivity|].
  split; [unfold Security.SECURITY_HEADERS; simpl; tauto|].
  rewrite Hcc, cache_control_for_cases.
  split; [|split].
  - destruct (is_static_asset pathname); [exact I|].
    destruct (JsStr.startsWith pathname "/api/"); discriminate.
  - intros Hext. apply is_static_asset_iff in Hext. now rewrite Hext.
  - intros Hnone.
    assert (Hasset : is_static_asset pathname = false).
    { apply Bool.not_true_is_false. intros H.
      apply is_static_asset_iff in H as (stem & ext & Hin & Heq).
      exact (Hnone stem ext Hin Heq). }
    rewrite Hasset. split.
    + intros rest Heq.
      assert (Hapi : JsStr.startsWith pathname "/api/" = true)
        by (apply startsWith_iff; eauto).
      now rewrite Hapi.
    + intros Hnot.
      assert (Hapi : JsStr.startsWith pathname "/api/" = false).
      { apply Bool.not_true_is_false. intros H.
        apply startsWith_iff in H as [rest Heq]. exact (Hnot rest Heq). }
      now rewrite Hapi.
Qed.

(** C9 on a script, on an API route, on an image under [/api/], on a page
    and on an extension in capitals. *)
Lemma middleware_headers_witness :
  headers_get "Cache-Control" (middleware ∅ "/assets/app.js")
  = Some "public, max-age=31536000, immutable"
  /\ headers_get "Cache-Control" (middleware ∅ "/api/posts")
     = Some "public, max-age=300, s-maxage=300"
  /\ headers_get "Cache-Control" (middleware ∅ "/api/og.png")
     = Some "public, max-age=31536000, immutable"
  /\ headers_get "Cache-Control" (middleware ∅ "/world/a-post")
     = Some "public, max-age=3600, s-maxage=86400"
  /\ headers_get "Cache-Control" (middleware ∅ "/images/logo.PNG")
     = Some "public, max-age=3600, s-maxage=86400".
Proof.
  split; [|split; [|split; [|split]]].
  - destruct (middleware_headers ∅ "/assets/app.js")
      as (_ & _ & _ & _ & Hasset & _).
    apply Hasset. exists "/assets/app", "js". split; [simpl; tauto | reflexivity].
  - destruct (middleware_headers ∅ "/api/posts")
      as (_ & _ & _ & _ & _ & Hother).
    refine (proj1 (Hother _) "posts" eq_refl).
    intros stem ext Hin Heq.
    assert (Hends : JsStr.endsWith "/api/posts" ("." +:+ ext) = true)
      by (apply endsWith_iff; eauto).
    cbn [In] in Hin.
    repeat (destruct Hin as [<-|Hin]; [vm_compute in Hends; discriminate|]).
    destruct Hin.
  - destruct (middleware_headers ∅ "/api/og.png")
      as (_ & _ & _ & _ & Hasset & _).
    apply Hasset. exists "/api/og", "png". split; [simpl; tauto | reflexivity].
  - destruct (middleware_headers ∅ "/world/a-post")
      as (_ & _ & _ & _ & _ & Hother).
    refine (proj2 (Hother _) _).
    + intros stem ext Hin Heq.
      assert (Hends : JsStr.endsWith "/world/a-post" ("." +:+ ext) = true)
        by (apply endsWith_iff; eauto).
      cbn [In] in Hin.
      repeat (destruct Hin as [<-|Hin]; [vm_compute in Hends; discriminate|]).
      destruct Hin.
    + intros rest Heq. discriminate Heq.
  - destruct (middleware_headers ∅ "/images/logo.PNG")
      as (_ & _ & _ & _ & _ & Hother).
    refine (proj2 (Hother _) _).
    + intros stem ext Hin Heq.
      assert (Hends : JsStr.endsWith "/images/logo.PNG" ("." +:+ ext) = true)
        by (apply endsWith_iff; eauto).
      cbn [In] in Hin.
      repeat (destruct Hin as [<-|Hin]; [vm_compute in Hends; discriminate|]).
      destruct Hin.
    + intros rest Heq. discriminate Heq.
Defined.

End MiddlewareFacts.

(** ** Input sanitising *)

Section SanitizeFacts.
Import Js Security.

Ltac by_char c :=
  repeat match goal with
         | |- context [Ascii.eqb c ?k] =>
             let E := fresh "E" in
             destruct (Ascii.eqb c k) eqn:E;
             [apply Ascii.eqb_eq in E; subst c|]
         end.

Ltac use_distinct :=
  repeat match goal with
         | H : Ascii.eqb _ _ = false |- _ => rewrite H; clear H
         end.

Lemma sanitize_string (s : string) : sanitizeInput (VStr s) = escape_all s.
Proof.
  unfold sanitizeInput.
  induction s as [|c s IH]; [reflexivity|].
  cbn [JsStr.replace_all escape_all]. unfold escape.
  destruct (Ascii.eqb c "&") eqn:E1;
    [|cbn [JsStr.replace_all]; destruct (Ascii.eqb c "<") eqn:E2;
      [|cbn [JsStr.replace_all]; destruct (Ascii.eqb c ">") eqn:E3;
        [|cbn [JsStr.replace_all]; destruct (Ascii.eqb c JsStr.dquote) eqn:E4;
          [|cbn [JsStr.replace_all]; destruct (Ascii.eqb c "'") eqn:E5;
            [|cbn [JsStr.replace_all]; destruct (Ascii.eqb c "/") eqn:E6]]]]];
    rewrite ?replace_all_append, IH; reflexivity.
Qed.

Lemma no_raw_append (a b : string) : no_raw (a +:+ b) = no_raw a && no_raw b.
Proof.
  unfold no_raw. induction a as [|x a IH]; simpl; [reflexivity|].
  now rewrite IH, andb_assoc.
Qed.

Lemma no_raw_escape (c : ascii) : no_raw (escape c) = true.
Proof.
  unfold escape. by_char c; try reflexivity.
  unfold no_raw, raw. simpl. now use_distinct.
Qed.

Lemma no_raw_escape_all (s : string) : no_raw (escape_all s) = true.
Proof.
  induction s as [|c s IH]; [reflexivity|].
  simpl. now rewrite no_raw_append, no_raw_escape, IH.
Qed.

Lemma amps_escaped_escape (c : ascii) (rest : string) :
  amps_escaped (escape c +:+ rest) = amps_escaped rest.
Proof.
  unfold escape. by_char c; simpl; rewrite ?prefix_empty_l; try reflexivity.
  now use_distinct.
Qed.

Lemma amps_escaped_escape_all (s : string) : amps_escaped (escape_all s) = true.
Proof.
  induction s as [|c s IH]; [reflexivity|].
  simpl. now rewrite amps_escaped_escape.
Qed.

(** C6, as the code has it. [sanitizeInput] replaces each of six characters
    by its entity, the five the specification names and the slash, and leaves every
    other character as it is; the ampersand pass comes first, so the
    result is the character-by-character escape with no entity escaped
    twice. The output has no raw [<], [>], double quote, ['] or [/], and
    each of its ampersands opens an entity. An input that is not a string
    gives the empty string. *)
Theorem sanitizeInput_escapes_six :
  (forall s, sanitizeInput (VStr s) = escape_all s)
  /\ (forall c,
         escape c
         = if existsb (Ascii.eqb c) ["&"; "<"; ">"; JsStr.dquote; "'"; "/"]%char
           then escape c else String c "")
  /\ (escape "&" = "&amp;" /\ escape "<" = "&lt;" /\ escape ">" = "&gt;"
      /\ escape JsStr.dquote = "&quot;" /\ escape "'" = "&#x27;"
      /\ escape "/" = "&#x2F;")
  /\ (forall s, no_raw (sanitizeInput (VStr s)) = true)
  /\ (forall s, amps_escaped (sanitizeInput (VStr s)) = true)
  /\ (forall v, match v with
                | VStr _ => True
                | _ => sanitizeInput v = ""
                end).
Proof.
  split; [exact sanitize_string|].
  split.
  { intros c. unfold escape. cbn [existsb].
    by_char c; try reflexivity. }
  split; [repeat split; reflexivity|].
  split; [intros s; rewrite sanitize_string; apply no_raw_escape_all|].
  split; [intros s; rewrite sanitize_string; apply amps_escaped_escape_all|].
  intros []; (exact I || reflexivity).
Qed.

(** C6, as the specification states it, fails on a slash: it is not one of
    the five characters, and it does not stay as it is. *)
Lemma sanitizeInput_changes_slash :
  existsb (Ascii.eqb "/") ["&"; "<"; ">"; JsStr.dquote; "'"]%char = false
  /\ sanitizeInput (VStr "a/b") = "a&#x2F;b"
  /\ sanitizeInput (VStr "a/b") <> "a/b".
Proof. repeat split; [vm_compute; discriminate]. Qed.

End SanitizeFacts.

(** ** Redirect validation *)

Section RedirectFacts.
Import Js Security.





End RedirectFacts.

(** ** Configuration gate *)

Section EnvValidationFacts.
Variable vars : gmap string string.

Lemma absent_or_empty_unset (name : string) :
  vars !! name = None \/ vars !! name = Some "" ->
  EnvValidation.unset (vars !! name) = true
  /\ ValidateEnvScript.unset (vars !! name) = true.
Proof. intros [H|H]; rewrite H; split; reflexivity. Qed.

(** *** The library *)

Lemma lib_step_grows st entry :
  let st' := EnvValidation.check_variable vars st entry in
  incl (EnvValidation.c_errors st) (EnvValidation.c_errors st')
  /\ incl (EnvValidation.c_missing st) (EnvValidation.c_missing st').
Proof.
  destruct entry as [name cfg]. unfold EnvValidation.check_variable.
  destruct (EnvValidation.unset (vars !! name));
    [destruct (EnvValidation.required cfg)
    |destruct (EnvValidation.validate cfg (default "" (vars !! name)))];
    cbn; split; auto using incl_refl, incl_appl.
Qed.

Lemma lib_fold_grows table st :
  let st' := fold_left (EnvValidation.check_variable vars) table st in
  incl (EnvValidation.c_errors st) (EnvValidation.c_errors st')
  /\ incl (EnvValidation.c_missing st) (EnvValidation.c_missing st').
Proof.
  revert st. induction table as [|entry table IH]; intros st; cbn.
  - split; apply incl_refl.
  - destruct (lib_step_grows st entry) as [He Hm].
    destruct (IH (EnvValidation.check_variable vars st entry)) as [He' Hm'].
    split; eapply incl_tran; eassumption.
Qed.

Lemma lib_fold_reports_missing table st name cfg :
  In (name, cfg) table ->
  EnvValidation.required cfg = true ->
  EnvValidation.unset (vars !! name) = true ->
  let st' := fold_left (EnvValidation.check_variable vars) table st in
  In name (EnvValidation.c_missing st')
  /\ exists e, In e (EnvValidation.c_errors st')
               /\ EnvValidation.variable e = name.
Proof.
  intros Hin Hreq Hunset. revert st.
  induction table as [|entry table IH]; intros st; [destruct Hin|].
  destruct Hin as [->|Hin]; [|apply (IH Hin)].
  cbn [fold_left].
  destruct (lib_fold_grows table (EnvValidation.check_variable vars st (name, cfg)))
    as [He Hm].
  unfold EnvValidation.check_variable in He, Hm |- *.
  rewrite Hunset, Hreq in He, Hm |- *. cbn in He, Hm.
  split.
  - apply Hm, in_or_app. right. left. reflexivity.
  - eexists. split; [apply He, in_or_app; right; left; reflexivity|reflexivity].
Qed.

Lemma lib_fold_invoked table st name :
  In name (EnvValidation.invoked
             (fold_left (EnvValidation.check_variable vars) table st)) ->
  In name (EnvValidation.invoked st)
  \/ EnvValidation.unset (vars !! name) = false.
Proof.
  revert st. induction table as [|[n cfg] table IH]; intros st H; [now left|].
  cbn [fold_left] in H. apply IH in H as [H|H]; [|now right].
  unfold EnvValidation.check_variable in H.
  destruct (EnvValidation.unset (vars !! n)) eqn:Hn;
    [destruct (EnvValidation.required cfg); now left|].
  cbn in H. apply in_app_or in H as [H|[<-|[]]]; [now left | now right].
Qed.

(** *** The build script *)

Lemma script_step_grows st entry :
  incl (ValidateEnvScript.c_missing st)
       (ValidateEnvScript.c_missing (ValidateEnvScript.check_variable vars st entry)).
Proof.
  destruct entry as [name cfg]. unfold ValidateEnvScript.check_variable.
  destruct (ValidateEnvScript.required cfg && ValidateEnvScript.unset (vars !! name));
    [cbn; apply incl_appl, incl_refl|].
  destruct (negb (ValidateEnvScript.required cfg)
            && ValidateEnvScript.unset (vars !! name)); [apply incl_refl|].
  destruct (ValidateEnvScript.validate cfg); cbn; apply incl_refl.
Qed.

Lemma script_fold_grows table st :
  incl (ValidateEnvScript.c_missing st)
       (ValidateEnvScript.c_missing
          (fold_left (ValidateEnvScript.check_variable vars) table st)).
Proof.
  revert st. induction table as [|entry table IH]; intros st; cbn.
  - apply incl_refl.
  - eapply incl_tran; [apply script_step_grows | apply IH].
Qed.

Lemma script_fold_reports_missing table st name cfg :
  In (name, cfg) table ->
  ValidateEnvScript.required cfg = true ->
  ValidateEnvScript.unset (vars !! name) = true ->
  In name (ValidateEnvScript.c_missing
             (fold_left (ValidateEnvScript.check_variable vars) table st)).
Proof.
  intros Hin Hreq Hunset. revert st.
  induction table as [|entry table IH]; intros st; [destruct Hin|].
  destruct Hin as [->|Hin]; [|apply (IH Hin)].
  cbn [fold_left]. apply script_fold_grows.
  unfold ValidateEnvScript.check_variable. rewrite Hunset, Hreq. cbn.
  apply in_or_app. right. left. reflexivity.
Qed.

(** Whatever the script validates or reports as an error is a variable that
    is set. *)
Lemma script_fold_touches_set table st name :
  let st' := fold_left (ValidateEnvScript.check_variable vars) table st in
  (In name (ValidateEnvScript.invoked st') ->
   In name (ValidateEnvScript.invoked st)
   \/ ValidateEnvScript.unset (vars !! name) = false)
  /\ (forall e, In e (ValidateEnvScript.c_errors st') ->
                ValidateEnvScript.variable e = name ->
                In e (ValidateEnvScript.c_errors st)
                \/ ValidateEnvScript.unset (vars !! name) = false).
Proof.
  revert st. induction table as [|[n cfg] table IH]; intros st; cbn [fold_left].
  - split; intros; now left.
  - destruct (IH (ValidateEnvScript.check_variable vars st (n, cfg))) as [Hi He].
    assert (Hstep :
      (In name (ValidateEnvScript.invoked
                  (ValidateEnvScript.check_variable vars st (n, cfg))) ->
       In name (ValidateEnvScript.invoked st)
       \/ ValidateEnvScript.unset (vars !! name) = false)
      /\ (forall e, In e (ValidateEnvScript.c_errors
                            (ValidateEnvScript.check_variable vars st (n, cfg))) ->
                    ValidateEnvScript.variable e = name ->
                    In e (ValidateEnvScript.c_errors st)
                    \/ ValidateEnvScript.unset (vars !! name) = false)).
    { unfold ValidateEnvScript.check_variable.
      destruct (ValidateEnvScript.required cfg) eqn:Hreq;
        destruct (ValidateEnvScript.unset (vars !! n)) eqn:Hn; cbn;
        try (split; intros; now left);
        (destruct (ValidateEnvScript.validate cfg) as [v|];
         [|split; intros; now left]); cbn; split.
      - intros H. apply in_app_or in H as [H|[<-|[]]]; [now left | now right].
      - intros e H Hname. destruct (v (default "" (vars !! n))); [now left|].
        apply in_app_or in H as [H|[<-|[]]]; [now left|].
        cbn in Hname. subst name. now right.
      - intros H. apply in_app_or in H as [H|[<-|[]]]; [now left | now right].
      - intros e H Hname. destruct (v (default "" (vars !! n))); [now left|].
        apply in_app_or in H as [H|[<-|[]]]; [now left|].
        cbn in Hname. subst name. now right. }
    destruct Hstep as [Hsi Hse]. split.
    + intros H. apply Hi in H as [H|H]; [now apply Hsi | now right].
    + intros e H Hname. destruct (He e H Hname) as [H'|H']; [|now right].
      now apply Hse.
Qed.

End EnvValidationFacts.

Section ConfigurationGate.

(** C4, as the code has it. Let a variable be absent or empty in the
    environment, and let the table have an entry for it with
    [required = true]. The library's [validateEnvVars] puts the variable in
    [missingVariables], puts an entry for it in [errors], answers
    [isValid = false] and does not call its validator. The build script's
    [validateEnvVars] puts it in [missingVariables], answers
    [isValid = false] and does not call its validator, and it puts no entry
    for it in [errors]. Both hold for every such entry of one table at once:
    the loop goes through the whole table and the result collects them
    all. *)
Theorem validate_required_missing
    (vars : gmap string string) (name : string)
    (Hmissing : vars !! name = None \/ vars !! name = Some "") :
  (forall table cfg,
      In (name, cfg) table ->
      EnvValidation.required cfg = true ->
      In name (EnvValidation.missingVariables
                 (EnvValidation.validateEnvVarsWith table vars))
      /\ (exists e,
             In e (EnvValidation.errors
                     (EnvValidation.validateEnvVarsWith table vars))
             /\ EnvValidation.variable e = name)
      /\ EnvValidation.isValid (EnvValidation.validateEnvVarsWith table vars)
         = false
      /\ ~ In name (EnvValidation.invoked (EnvValidation.run table vars)))
  /\ (forall table cfg,
         In (name, cfg) table ->
         ValidateEnvScript.required cfg = true ->
         In name (ValidateEnvScript.missingVariables
                    (ValidateEnvScript.validateEnvVarsWith table vars))
         /\ ValidateEnvScript.isValid
              (ValidateEnvScript.validateEnvVarsWith table vars) = false
         /\ ~ In name (ValidateEnvScript.invoked
                         (ValidateEnvScript.run table vars))
         /\ (forall e,
                In e (ValidateEnvScript.errors
                        (ValidateEnvScript.validateEnvVarsWith table vars)) ->
                ValidateEnvScript.variable e <> name)).
Proof.
  destruct (absent_or_empty_unset vars name Hmissing) as [Hlib Hscript].
  split; intros table cfg Hin Hreq.
  - destruct (lib_fold_reports_missing vars table EnvValidation.nothing
                name cfg Hin Hreq Hlib) as (Hm & e & He & Hname).
    unfold EnvValidation.validateEnvVarsWith, EnvValidation.result_of,
      EnvValidation.run. cbn.
    repeat split.
    + exact Hm.
    + exists e. auto.
    + destruct (EnvValidation.c_errors _); [destruct He | reflexivity].
    + intros H. apply lib_fold_invoked in H as [[]|H]. congruence.
  - pose proof (script_fold_reports_missing vars table ValidateEnvScript.nothing
                  name cfg Hin Hreq Hscript) as Hm.
    destruct (script_fold_touches_set vars table ValidateEnvScript.nothing name)
      as [Hi He].
    unfold ValidateEnvScript.validateEnvVarsWith, ValidateEnvScript.result_of,
      ValidateEnvScript.run. cbn.
    repeat split.
    + exact Hm.
    + destruct (ValidateEnvScript.c_missing _); [destruct Hm|].
      apply andb_false_r.
    + intros H. apply Hi in H as [[]|H]. congruence.
    + intros e H Hname. destruct (He e H Hname) as [[]|H']. congruence.
Qed.

(** C4 on the two tables of the repository, for an environment that sets
    nothing: [SITE_URL] is required in both. *)
Lemma validate_required_missing_witness :
  (In "SITE_URL"
      (EnvValidation.missingVariables
         (EnvValidation.validateEnvVars UrlModel.URL_new ∅))
   /\ (exists e,
          In e (EnvValidation.errors
                  (EnvValidation.validateEnvVars UrlModel.URL_new ∅))
          /\ EnvValidation.variable e = "SITE_URL")
   /\ EnvValidation.isValid (EnvValidation.validateEnvVars UrlModel.URL_new ∅)
      = false
   /\ ~ In "SITE_URL"
        (EnvValidation.invoked
           (EnvValidation.run (EnvValidation.REQUIRED_ENV_VARS UrlModel.URL_new) ∅)))
  /\ In "SITE_URL"
       (ValidateEnvScript.missingVariables
          (ValidateEnvScript.validateEnvVars UrlModel.URL_new ∅)).
Proof.
  assert (Hmissing : (∅ : gmap string string) !! "SITE_URL" = None
                     \/ (∅ : gmap string string) !! "SITE_URL" = Some "")
    by (left; apply lookup_empty).
  destruct (validate_required_missing ∅ "SITE_URL" Hmissing) as [Hlib Hscript].
  split.
  - eapply (Hlib (EnvValidation.REQUIRED_ENV_VARS UrlModel.URL_new));
      [right; right; left; reflexivity | reflexivity].
  - eapply (Hscript (ValidateEnvScript.REQUIRED_ENV_VARS UrlModel.URL_new));
      [right; right; left; reflexivity | reflexivity].
Defined.

(** C4, as the specification states it, fails on the build script: with
    nothing set, the required [WPGRAPHQL_ENDPOINT] is in [missingVariables]
    and [errors] is empty. *)
Lemma script_missing_not_in_errors :
  In ("WPGRAPHQL_ENDPOINT",
      {| ValidateEnvScript.required := true;
         ValidateEnvScript.validate := Some (ValidateEnvScript.is_url UrlModel.URL_new);
         ValidateEnvScript.errorMessage :=
           Some "Must be a valid URL to WordPress GraphQL endpoint" |})
     (ValidateEnvScript.REQUIRED_ENV_VARS UrlModel.URL_new)
  /\ ValidateEnvScript.missingVariables
       (ValidateEnvScript.validateEnvVars UrlModel.URL_new ∅)
     = ["WPGRAPHQL_ENDPOINT"; "REVALIDATE_SECRET"; "SITE_URL"; "SITE_TITLE";
        "SITE_DESCRIPTION"; "SITE_NAME"; "SITE_COPYRIGHT"]
  /\ ValidateEnvScript.errors
       (ValidateEnvScript.validateEnvVars UrlModel.URL_new ∅) = [].
Proof.
  split; [left; reflexivity|]. split; vm_compute; reflexivity.
Qed.

End ConfigurationGate.

(** ** Content gateway: related posts *)

Section RelatedPostsFacts.
Import Js Api.






End RelatedPostsFacts.

(** ** Content gateway: the cursor walks *)

Section CursorWalkFacts.
Import Js Api.

Lemma collect_posts_page (p : Page) :
  collect_posts (VArr (map VObj (nodes p))) = Ok (posts_of p).
Proof. reflexivity. Qed.

Lemma collect_slugs_page (p : Page) :
  collect_slugs (VArr (map VObj (nodes p))) = Ok (slugs_of_page p).
Proof.
  unfold collect_slugs, slugs_of_page, arr_map.
  assert (H : mapM (fun post => prop post "slug") (map VObj (nodes p))
              = Ok (map (fun fields => field fields "slug") (nodes p))).
  { induction (nodes p) as [|f l IH]; cbn; [reflexivity|]. now rewrite IH. }
  rewrite H. reflexivity.
Qed.

Section Loop.
Variable collect : value -> Res (list value).
Variable items_of : Page -> list value.
Hypothesis collect_page :
  forall p, collect (VArr (map VObj (nodes p))) = Ok (items_of p).
Variable up : Upstream.

Lemma page_step_serves n after p :
  up n GET_ALL_POSTS_SLUGS_QUERY (VObj [("first", VNum 100); ("after", after)])
  = Ok (encode_page p) ->
  page_step collect up n after
  = Ok (items_of p, VBool (hasNextPage p), cursor_value p).
Proof.
  intros H. unfold page_step. rewrite H. cbn. rewrite collect_page. reflexivity.
Qed.

Lemma loop_follows pages last :
  Forall (fun p => hasNextPage p = true) pages ->
  hasNextPage last = false ->
  forall n after acc fuel,
    serves_from up n after (pages ++ [last]) ->
    (length pages < fuel)%nat ->
    loop collect up fuel n (VBool true) after acc
    = (after :: map cursor_value pages,
       Ok (Some (acc ++ concat (map items_of (pages ++ [last]))))).
Proof.
  intros Hmore Hlast.
  induction Hmore as [|p rest Hp _ IH]; intros n after acc fuel Hs Hfuel;
    (destruct fuel as [|fuel]; [cbn in Hfuel; lia|]);
    cbn in Hs; destruct Hs as [Hreq Hs]; cbn [loop truthy];
    rewrite (page_step_serves _ _ _ Hreq).
  - rewrite Hlast. destruct fuel; cbn; now rewrite app_nil_r.
  - rewrite Hp. rewrite (IH (S n) (cursor_value p) (acc ++ items_of p) fuel Hs)
      by (cbn in Hfuel; lia).
    cbn. now rewrite app_assoc.
Qed.

Lemma walk_follows pages last fuel :
  Forall (fun p => hasNextPage p = true) pages ->
  hasNextPage last = false ->
  serves_from up 0 VNull (pages ++ [last]) ->
  (length pages < fuel)%nat ->
  walk collect up fuel = Some (VArr (concat (map items_of (pages ++ [last]))))
  /\ sent_cursors collect up fuel = VNull :: map cursor_value pages.
Proof.
  intros Hmore Hlast Hs Hfuel. unfold walk, sent_cursors.
  rewrite (loop_follows pages last Hmore Hlast 0%nat VNull [] fuel Hs Hfuel).
  split; reflexivity.
Qed.

Lemma last_cons {A : Type} (a d : A) (l : list A) :
  List.last (a :: l) d = List.last l a.
Proof.
  revert a d. induction l as [|b l IH]; intros a d; [reflexivity|].
  change (List.last (a :: b :: l) d) with (List.last (b :: l) d).
  now rewrite !IH.
Qed.

Lemma loop_raises pages e :
  Forall (fun p => hasNextPage p = true) pages ->
  forall n after acc fuel,
    serves_from up n after pages ->
    up (n + length pages)%nat GET_ALL_POSTS_SLUGS_QUERY
       (VObj [("first", VNum 100);
              ("after", List.last (map cursor_value pages) after)])
    = Throw e ->
    (length pages < fuel)%nat ->
    snd (loop collect up fuel n (VBool true) after acc) = Throw e.
Proof.
  intros Hmore.
  induction Hmore as [|p rest Hp _ IH]; intros n after acc fuel Hs Hthrow Hfuel;
    (destruct fuel as [|fuel]; [cbn in Hfuel; lia|]); cbn [loop truthy].
  - cbn in Hthrow. rewrite Nat.add_0_r in Hthrow.
    unfold page_step. rewrite Hthrow. reflexivity.
  - cbn in Hs. destruct Hs as [Hreq Hs].
    rewrite (page_step_serves _ _ _ Hreq), Hp.
    cbn [map length] in Hthrow. rewrite last_cons, Nat.add_succ_r in Hthrow.
    specialize (IH (S n) (cursor_value p) (acc ++ items_of p) fuel Hs Hthrow).
    destruct (loop collect up fuel (S n) (VBool true) (cursor_value p)
                (acc ++ items_of p)) as [sent out].
    cbn in IH |- *. apply IH. cbn in Hfuel. lia.
Qed.

Lemma walk_raises pages e fuel :
  Forall (fun p => hasNextPage p = true) pages ->
  serves_from up 0 VNull pages ->
  up (length pages) GET_ALL_POSTS_SLUGS_QUERY
     (VObj [("first", VNum 100);
            ("after", List.last (map cursor_value pages) VNull)])
  = Throw e ->
  (length pages < fuel)%nat ->
  walk collect up fuel = Some (VArr []).
Proof.
  intros Hmore Hs Hthrow Hfuel. unfold walk.
  rewrite (loop_raises pages e Hmore 0%nat VNull [] fuel Hs Hthrow Hfuel).
  reflexivity.
Qed.

Lemma loop_stuck fuel n acc :
  (forall m v, up m GET_ALL_POSTS_SLUGS_QUERY v = stuck m GET_ALL_POSTS_SLUGS_QUERY v) ->
  loop collect up fuel n (VBool true) VNull acc = (repeat VNull fuel, Ok None).
Proof.
  intros Hup. revert n acc.
  induction fuel as [|fuel IH]; intros n acc; [reflexivity|].
  cbn [loop truthy].
  rewrite (page_step_serves n VNull
             {| nodes := [[("slug", VStr "a-post")]];
                hasNextPage := true; endCursor := None |}) by apply Hup.
  cbn [hasNextPage cursor_value endCursor]. rewrite IH. reflexivity.
Qed.

End Loop.

(** C1, as the code has it. Take any upstream and any finite sequence of
    pages it serves to the requests the walk sends: the first request with
    [after = null], each later one with the [endCursor] of the page before;
    every page but the last has [hasNextPage = true], the last has
    [hasNextPage = false]. Then both walks end, with one iteration per
    page, and return the items of all the pages in order
    ([getAllPostsWithDates] the posts, [getAllPostsSlugs] their slugs); the
    values of [after] they sent are [null] and then the cursors of the
    pages. A page with [hasNextPage = true] and no cursor does not end the
    walk: it is a page like the others, and the next request goes out with
    [after = null]. *)
Theorem cursor_walk_follows_cursors
    (up : Upstream) (pages : list Page) (last : Page) (fuel : nat)
    (Hmore : Forall (fun p => hasNextPage p = true) pages)
    (Hlast : hasNextPage last = false)
    (Hserves : serves_from up 0 VNull (pages ++ [last]))
    (Hfuel : (length pages < fuel)%nat) :
  getAllPostsWithDates up fuel
  = Some (VArr (concat (map posts_of (pages ++ [last]))))
  /\ getAllPostsSlugs up fuel
     = Some (VArr (concat (map slugs_of_page (pages ++ [last]))))
  /\ sent_cursors collect_posts up fuel = VNull :: map cursor_value pages
  /\ sent_cursors collect_slugs up fuel = VNull :: map cursor_value pages.
Proof.
  destruct (walk_follows collect_posts posts_of collect_posts_page up
              pages last fuel Hmore Hlast Hserves Hfuel) as [Hp Hpc].
  destruct (walk_follows collect_slugs slugs_of_page collect_slugs_page up
              pages last fuel Hmore Hlast Hserves Hfuel) as [Hs Hsc].
  unfold getAllPostsWithDates, getAllPostsSlugs. auto.
Qed.

(** C1 on three pages, the second of which claims a next page and gives no
    cursor: the walk asks again with [after = null] and ends on the third. *)
Lemma cursor_walk_follows_cursors_witness :
  getAllPostsWithDates
    (scripted
       [{| nodes := [[("slug", VStr "a")]; [("slug", VStr "b")]];
           hasNextPage := true; endCursor := Some "c1" |};
        {| nodes := [[("slug", VStr "c")]];
           hasNextPage := true; endCursor := None |};
        {| nodes := [[("slug", VStr "d")]];
           hasNextPage := false; endCursor := None |}]) 3
  = Some (VArr [VObj [("slug", VStr "a")]; VObj [("slug", VStr "b")];
                VObj [("slug", VStr "c")]; VObj [("slug", VStr "d")]])
  /\ getAllPostsSlugs
       (scripted
          [{| nodes := [[("slug", VStr "a")]; [("slug", VStr "b")]];
              hasNextPage := true; endCursor := Some "c1" |};
           {| nodes := [[("slug", VStr "c")]];
              hasNextPage := true; endCursor := None |};
           {| nodes := [[("slug", VStr "d")]];
              hasNextPage := false; endCursor := None |}]) 3
     = Some (VArr [VStr "a"; VStr "b"; VStr "c"; VStr "d"])
  /\ sent_cursors collect_posts
       (scripted
          [{| nodes := [[("slug", VStr "a")]; [("slug", VStr "b")]];
              hasNextPage := true; endCursor := Some "c1" |};
           {| nodes := [[("slug", VStr "c")]];
              hasNextPage := true; endCursor := None |};
           {| nodes := [[("slug", VStr "d")]];
              hasNextPage := false; endCursor := None |}]) 3
     = [VNull; VStr "c1"; VNull]
  /\ sent_cursors collect_slugs
       (scripted
          [{| nodes := [[("slug", VStr "a")]; [("slug", VStr "b")]];
              hasNextPage := true; endCursor := Some "c1" |};
           {| nodes := [[("slug", VStr "c")]];
              hasNextPage := true; endCursor := None |};
           {| nodes := [[("slug", VStr "d")]];
              hasNextPage := false; endCursor := None |}]) 3
     = [VNull; VStr "c1"; VNull].
Proof.
  apply (cursor_walk_follows_cursors
           (scripted
              [{| nodes := [[("slug", VStr "a")]; [("slug", VStr "b")]];
                  hasNextPage := true; endCursor := Some "c1" |};
               {| nodes := [[("slug", VStr "c")]];
                  hasNextPage := true; endCursor := None |};
               {| nodes := [[("slug", VStr "d")]];
                  hasNextPage := false; endCursor := None |}])
           [{| nodes := [[("slug", VStr "a")]; [("slug", VStr "b")]];
               hasNextPage := true; endCursor := Some "c1" |};
            {| nodes := [[("slug", VStr "c")]];
               hasNextPage := true; endCursor := None |}]
           {| nodes := [[("slug", VStr "d")]];
              hasNextPage := false; endCursor := None |} 3%nat).
  - repeat constructor.
  - reflexivity.
  - cbn. repeat split; reflexivity.
  - cbn. lia.
Defined.

(** C1, as the specification states it, fails: when every page claims a next
    page and gives no cursor, neither walk ever returns; each iteration sends
    the same request with [after = null]. *)
Lemma cursor_walk_never_ends_on_null_cursor :
  (forall fuel, getAllPostsSlugs stuck fuel = None)
  /\ (forall fuel, getAllPostsWithDates stuck fuel = None)
  /\ (forall fuel, sent_cursors collect_slugs stuck fuel = repeat VNull fuel).
Proof.
  split; [|split]; intros fuel;
    unfold getAllPostsSlugs, getAllPostsWithDates, walk, sent_cursors.
  - rewrite (loop_stuck collect_slugs slugs_of_page collect_slugs_page stuck);
      [reflexivity | reflexivity].
  - rewrite (loop_stuck collect_posts posts_of collect_posts_page stuck);
      [reflexivity | reflexivity].
  - rewrite (loop_stuck collect_slugs slugs_of_page collect_slugs_page stuck);
      [reflexivity | reflexivity].
Qed.

End CursorWalkFacts.

(** ** Content gateway: failure containment *)

Section GatewayFailureFacts.
Import Js Api.

(** C2. When the request of an operation throws, whatever the error, the
    operation returns its empty value: the empty page for [getPosts], [null]
    for [getPostBySlug], [getPostsByCategory], [getAuthor] and [getTag], the
    empty array for [getCategories], [getRelatedPosts], [searchPosts] and
    the five enumerations. For a cursor walk the request that throws may be
    the first or a later one, after any number of pages: what was
    accumulated is dropped and the walk returns the empty array. Every
    operation is a function into values: none has an outcome that is an
    exception. *)
Theorem gateway_contains_failures (up : Upstream) (e : exn) :
  (forall first after,
      raises up GET_POSTS_QUERY
        [("first", VNum first); ("after", of_option_string after)] e ->
      getPosts up first after
      = VObj [("nodes", VArr []);
              ("pageInfo", VObj [("hasNextPage", VBool false);
                                 ("endCursor", VNull)])])
  /\ (forall slug,
         raises up GET_POST_BY_SLUG_QUERY [("slug", VStr slug)] e ->
         getPostBySlug up slug = VNull)
  /\ (forall slug first after,
         raises up GET_POSTS_BY_CATEGORY_QUERY
           [("slug", VStr slug); ("first", VNum first);
            ("after", of_option_string after)] e ->
         getPostsByCategory up slug first after = VNull)
  /\ (forall first,
         raises up GET_CATEGORIES_QUERY [("first", VNum first)] e ->
         getCategories up first = VArr [])
  /\ (forall slug,
         raises up GET_AUTHOR_QUERY [("slug", VStr slug)] e ->
         getAuthor up slug = VNull)
  /\ (forall slug,
         raises up GET_TAG_QUERY [("slug", VStr slug)] e ->
         getTag up slug = VNull)
  /\ (forall decode categoryId excludeId first,
         raises up GET_RELATED_POSTS_QUERY
           [("categoryId", fst (request_ids decode categoryId excludeId));
            ("excludeId", snd (request_ids decode categoryId excludeId));
            ("first", VNum first)] e ->
         getRelatedPosts decode up categoryId excludeId first = VArr [])
  /\ (forall search first,
         raises up SEARCH_POSTS_QUERY
           [("search", VStr search); ("first", VNum first)] e ->
         searchPosts up search first = VArr [])
  /\ (forall pages fuel,
         Forall (fun p => hasNextPage p = true) pages ->
         serves_from up 0 VNull pages ->
         up (length pages) GET_ALL_POSTS_SLUGS_QUERY
            (VObj [("first", VNum 100);
                   ("after", List.last (map cursor_value pages) VNull)])
         = Throw e ->
         (length pages < fuel)%nat ->
         getAllPostsSlugs up fuel = Some (VArr [])
         /\ getAllPostsWithDates up fuel = Some (VArr []))
  /\ (raises up GET_ALL_CATEGORIES_SLUGS_QUERY [("first", VNum 100)] e ->
      getAllCategoriesSlugs up = VArr [])
  /\ (raises up GET_ALL_AUTHORS_SLUGS_QUERY [("first", VNum 100)] e ->
      getAllAuthorsSlugs up = VArr [])
  /\ (raises up GET_ALL_TAGS_SLUGS_QUERY [("first", VNum 100)] e ->
      getAllTagsSlugs up = VArr []).
Proof.
  unfold raises.
  repeat match goal with |- _ /\ _ => split end; intros;
    try (unfold getPosts, getPostBySlug, getPostsByCategory, getCategories,
           getAuthor, getTag, searchPosts, getAllCategoriesSlugs,
           getAllAuthorsSlugs, getAllTagsSlugs, slugs_of;
         match goal with H : up _ _ _ = Throw _ |- _ => rewrite H end;
         reflexivity).
  - unfold getRelatedPosts.
    destruct (request_ids decode categoryId excludeId) as [catId postId].
    cbn [fst snd] in H. rewrite H. reflexivity.
  - split.
    + apply (walk_raises collect_slugs slugs_of_page collect_slugs_page up
               pages e fuel); assumption.
    + apply (walk_raises collect_posts posts_of collect_posts_page up
               pages e fuel); assumption.
Qed.

(** C2 on an upstream that throws a network error on every request, and on
    one that serves a page and throws on the request after it. *)
Lemma gateway_contains_failures_witness :
  getPosts (failing (RequestError "network")) 10 None = emptyPage
  /\ getPostBySlug (failing (RequestError "network")) "a-post" = VNull
  /\ searchPosts (failing (RequestError "network")) "term" 20 = VArr []
  /\ getAllPostsSlugs
       (scripted [{| nodes := [[("slug", VStr "a")]];
                     hasNextPage := true; endCursor := Some "c1" |}]) 2
     = Some (VArr []).
Proof.
  split; [|split; [|split]].
  - apply (gateway_contains_failures (failing (RequestError "network"))
             (RequestError "network")).
    reflexivity.
  - apply (gateway_contains_failures (failing (RequestError "network"))
             (RequestError "network")).
    reflexivity.
  - apply (gateway_contains_failures (failing (RequestError "network"))
             (RequestError "network")).
    reflexivity.
  - destruct (gateway_contains_failures
                (scripted [{| nodes := [[("slug", VStr "a")]];
                              hasNextPage := true; endCursor := Some "c1" |}])
                (RequestError "no such page"))
      as (_ & _ & _ & _ & _ & _ & _ & _ & Hwalk & _).
    refine (proj1 (Hwalk [{| nodes := [[("slug", VStr "a")]];
                             hasNextPage := true; endCursor := Some "c1" |}]
                     2%nat _ _ _ _)).
    + repeat constructor.
    + cbn. split; reflexivity.
    + reflexivity.
    + cbn. lia.
Defined.

End GatewayFailureFacts.

(** ** Text utilities *)

Section TextFacts.
Import ApiText.

Lemma has_gt_append (a b : string) : has_gt (a +:+ b) = has_gt a || has_gt b.
Proof.
  induction a as [|c a IH]; simpl; [reflexivity|].
  now rewrite IH, orb_assoc.
Qed.

Lemma no_gt_no_tag (s : string) : has_gt s = false -> has_tag s = false.
Proof.
  induction s as [|c s IH]; simpl; [reflexivity|].
  intros H. apply orb_false_iff in H as [_ H].
  now rewrite H, IH, andb_false_r.
Qed.

Lemma strip_tags_no_tag (s : string) (tag : option string) :
  has_gt (default "" tag) = false ->
  has_tag (strip_tags_from s tag) = false.
Proof.
  revert tag. induction s as [|c s IH]; intros tag Hbuf; simpl.
  - now apply no_gt_no_tag.
  - destruct tag as [buf|].
    + destruct (Ascii.eqb c ">") eqn:Hc; apply IH; [reflexivity|].
      simpl in Hbuf |- *. rewrite has_gt_append, Hbuf. simpl. now rewrite Hc.
    + destruct (Ascii.eqb c "<") eqn:Hc; [apply IH; reflexivity|].
      simpl. rewrite Hc. simpl. apply IH. reflexivity.
Qed.

Lemma strip_tags_open (r buf : string) :
  has_gt r = false -> strip_tags_from r (Some buf) = buf +:+ r.
Proof.
  revert buf. induction r as [|c r IH]; intros buf H; simpl.
  - now rewrite append_empty_r.
  - simpl in H. apply orb_false_iff in H as [Hc H].
    rewrite Hc, IH by exact H. now rewrite append_assoc.
Qed.

Lemma strip_tags_fixed (t : string) :
  has_tag t = false -> strip_tags_from t None = t.
Proof.
  induction t as [|c t IH]; simpl; [reflexivity|].
  intros H. apply orb_false_iff in H as [Hc H].
  destruct (Ascii.eqb c "<") eqn:Hlt.
  - simpl in Hc. rewrite strip_tags_open by exact Hc.
    apply Ascii.eqb_eq in Hlt. now subst c.
  - now rewrite IH.
Qed.

Lemma strip_tags_length (s : string) (tag : option string) :
  (String.length (strip_tags_from s tag)
   <= String.length (default "" tag) + String.length s)%nat.
Proof.
  assert (Happ : forall a b,
             String.length (a +:+ b) = (String.length a + String.length b)%nat).
  { intros a b. induction a as [|x a IHa]; simpl; [reflexivity | now rewrite IHa]. }
  revert tag. induction s as [|c s IH]; intros tag; simpl; [lia|].
  destruct tag as [buf|].
  - destruct (Ascii.eqb c ">").
    + specialize (IH None). simpl in IH |- *. lia.
    + specialize (IH (Some (buf +:+ String c ""))). simpl in IH |- *.
      rewrite Happ in IH. simpl in IH. lia.
  - destruct (Ascii.eqb c "<").
    + specialize (IH (Some "<")). simpl in IH |- *. lia.
    + specialize (IH None). simpl in IH |- *. lia.
Qed.

Lemma stripHtml_strip (s : string) : stripHtml (Some s) = strip_tags_from s None.
Proof.
  unfold stripHtml. destruct (String.eqb_spec s ""); [now subst|reflexivity].
Qed.

(** X1. What [stripHtml] returns has no tag left, whatever the input: no
    [<] of the result has a [>] after it. The result is never longer than
    the input, and an absent input gives the empty string. *)
Theorem stripHtml_leaves_no_tag :
  (forall html, has_tag (stripHtml html) = false)
  /\ (forall s, (String.length (stripHtml (Some s)) <= String.length s)%nat)
  /\ stripHtml None = "".
Proof.
  split; [|split; [|reflexivity]].
  - intros [s|]; [|reflexivity].
    rewrite stripHtml_strip. now apply strip_tags_no_tag.
  - intros s. rewrite stripHtml_strip.
    apply (strip_tags_length s None).
Qed.

(** X2. [stripHtml] leaves a text as it is exactly when the text has no tag;
    a [<] that no [>] follows is kept with everything after it. So
    stripping twice is stripping once. *)
Theorem stripHtml_fixed_points (s : string) :
  (stripHtml (Some s) = s <-> has_tag s = false)
  /\ stripHtml (Some (stripHtml (Some s))) = stripHtml (Some s).
Proof.
  assert (Hno : has_tag (stripHtml (Some s)) = false)
    by (rewrite stripHtml_strip; now apply strip_tags_no_tag).
  split.
  - split.
    + intros H. now rewrite H in Hno.
    + intros H. rewrite stripHtml_strip. now apply strip_tags_fixed.
  - rewrite (stripHtml_strip (stripHtml (Some s))).
    now apply strip_tags_fixed.
Qed.

Lemma length_append (a b : string) :
  String.length (a +:+ b) = (String.length a + String.length b)%nat.
Proof. induction a as [|x a IH]; simpl; [reflexivity | now rewrite IH]. Qed.

Lemma length_rev_app (a b : string) :
  String.length (String.rev_app a b) = (String.length a + String.length b)%nat.
Proof.
  revert b. induction a as [|x a IH]; intros b; simpl; [reflexivity|].
  rewrite IH. simpl. lia.
Qed.

Lemma length_rev (a : string) : String.length (String.rev a) = String.length a.
Proof. unfold String.rev. rewrite length_rev_app. simpl. lia. Qed.

Lemma length_drop_spaces (a : string) :
  (String.length (JsStr.drop_spaces a) <= String.length a)%nat.
Proof.
  induction a as [|x a IH]; simpl; [lia|].
  destruct (JsStr.is_space x); simpl; lia.
Qed.

Lemma length_trim (a : string) :
  (String.length (JsStr.trim a) <= String.length a)%nat.
Proof.
  unfold JsStr.trim. rewrite length_rev.
  pose proof (length_drop_spaces (String.rev (JsStr.drop_spaces a))) as H1.
  pose proof (length_drop_spaces a) as H2.
  rewrite length_rev in H1. lia.
Qed.

Lemma length_substring (n m : nat) (a : string) :
  (String.length (String.substring n m a) <= m)%nat.
Proof.
  revert n m. induction a as [|x a IH]; intros [|n] [|m]; simpl;
    try lia; try apply IH.
  specialize (IH 0%nat m). lia.
Qed.

(** X3. [truncateText] returns a text of at most [length + 3] characters
    (three when [length] is negative). A text of at most [length]
    characters comes back as it is; a longer one comes back as at most
    [length] characters followed by three dots, so a text one character
    too long comes back longer than it was. *)
Theorem truncateText_bounds :
  (forall text len,
      (String.length (truncateText text len) <= Z.to_nat len + 3)%nat)
  /\ (forall s len,
         (Z.of_nat (String.length s) <= len)%Z -> truncateText (Some s) len = s)
  /\ (forall s len,
         (len < Z.of_nat (String.length s))%Z -> s <> "" ->
         exists kept,
           truncateText (Some s) len = kept +:+ "..."
           /\ (String.length kept <= Z.to_nat len)%nat)
  /\ truncateText (Some "abcd") 3 = "abc...".
Proof.
  assert (Hlong : forall s len,
             (len < Z.of_nat (String.length s))%Z -> s <> "" ->
             truncateText (Some s) len
             = JsStr.trim (String.substring 0 (Z.to_nat len) s) +:+ "...").
  { intros s len Hlen Hs. unfold truncateText.
    destruct (String.eqb_spec s ""); [contradiction|].
    destruct (Z.leb_spec (Z.of_nat (String.length s)) len); [lia | reflexivity]. }
  split; [|split; [|split; [|reflexivity]]].
  - intros [s|] len; [|simpl; lia].
    destruct (String.eqb_spec s "") as [->|Hs]; [simpl; lia|].
    destruct (Z.leb_spec (Z.of_nat (String.length s)) len) as [Hle|Hlt].
    + unfold truncateText. destruct (String.eqb_spec s ""); [contradiction|].
      destruct (Z.leb_spec (Z.of_nat (String.length s)) len); lia.
    + rewrite Hlong by assumption. rewrite length_append. simpl.
      pose proof (length_trim (String.substring 0 (Z.to_nat len) s)).
      pose proof (length_substring 0 (Z.to_nat len) s). lia.
  - intros s len Hle. unfold truncateText.
    destruct (String.eqb_spec s ""); [now subst|].
    destruct (Z.leb_spec (Z.of_nat (String.length s)) len); [reflexivity | lia].
  - intros s len Hlt Hs. eexists. split; [apply Hlong; assumption|].
    pose proof (length_trim (String.substring 0 (Z.to_nat len) s)).
    pose proof (length_substring 0 (Z.to_nat len) s). lia.
Qed.

(** X3 on a text of five characters and a bound of four. *)
Lemma truncateText_bounds_witness :
  truncateText (Some "ab de") 5 = "ab de"
  /\ exists kept,
       truncateText (Some "ab de") 3 = kept +:+ "..."
       /\ (String.length kept <= Z.to_nat 3)%nat.
Proof.
  destruct truncateText_bounds as (_ & Hshort & Hlong & _).
  split.
  - apply Hshort. simpl. lia.
  - apply Hlong; [simpl; lia | discriminate].
Defined.

End TextFacts.

(** ** Cache classes and tags *)

Section CachePolicyFacts.
Import CacheHeaders CachePolicy.

(** X4. For every content type, [getCacheConfigForContentType] answers with
    one of four directives of the table, never with the [analytics] one, so
    everything it classifies is cached for at least 300 seconds. A content
    type that mentions [text/html] gets the page directive whatever else it
    mentions, and the rendered header has a [stale-if-error] clause exactly
    for those content types. *)
Theorem getCacheConfigForContentType_classes (contentType : string) :
  In (getCacheConfigForContentType contentType) [html; assets; images; api]
  /\ getCacheConfigForContentType contentType <> analytics
  /\ (300 <= maxAge (getCacheConfigForContentType contentType))%Z
  /\ (if JsStr.includes contentType "text/html"
      then getCacheConfigForContentType contentType = html
      else getCacheConfigForContentType contentType <> html)
  /\ JsStr.includes
       (formatCacheControl (getCacheConfigForContentType contentType))
       "stale-if-error"
     = JsStr.includes contentType "text/html".
Proof.
  unfold getCacheConfigForContentType.
  destruct (JsStr.includes contentType "text/html");
    [|destruct (JsStr.includes contentType "application/javascript"
                || JsStr.includes contentType "text/css");
      [|destruct (JsStr.includes contentType "image/");
        [|destruct (JsStr.includes contentType "application/json")]]];
    (split; [simpl; tauto|]);
    (split; [discriminate|]);
    (split; [simpl; lia|]);
    (split; [first [reflexivity | discriminate] | vm_compute; reflexivity]).
Qed.

(** X5. For every path, [generateCacheTags] returns between one and three
    tags without repetition, the last of which is [all-content]. A path
    that contains [/api/] gets [api] and nothing else before it, whatever
    else the path contains, and [posts] is given exactly with one of
    [category], [author], [tag], [search] and [homepage]. *)
Theorem generateCacheTags_shape (pathOrContext : string) :
  (exists tags,
      generateCacheTags pathOrContext = tags ++ ["all-content"]
      /\ (length tags <= 2)%nat
      /\ ~ In "all-content" tags)
  /\ NoDup (generateCacheTags pathOrContext)
  /\ (if JsStr.includes pathOrContext "/api/"
      then generateCacheTags pathOrContext = ["api"; "all-content"]
      else ~ In "api" (generateCacheTags pathOrContext))
  /\ (In "posts" (generateCacheTags pathOrContext) <->
      exists kind,
        In kind ["category"; "author"; "tag"; "search"; "homepage"]
        /\ generateCacheTags pathOrContext = [kind; "posts"; "all-content"]).
Proof.
  unfold generateCacheTags.
  destruct (JsStr.includes pathOrContext "/api/");
    [|destruct (JsStr.includes pathOrContext "/category/");
      [|destruct (JsStr.includes pathOrContext "/author/");
        [|destruct (JsStr.includes pathOrContext "/tag/");
          [|destruct (JsStr.includes pathOrContext "/search");
            [|destruct (String.eqb pathOrContext "/"
                        || JsStr.includes pathOrContext "/page/");
              [|destruct (JsStr.includes pathOrContext ".")]]]]]];
    cbn [app];
    (split;
     [match goal with
      | |- exists tags, ?l = _ /\ _ => exists (removelast l)
      end;
      split; [reflexivity|]; split;
      [simpl; lia | simpl; intros H; intuition discriminate]|]);
    (split; [apply (bool_decide_unpack _); vm_compute; exact I|]);
    (split; [first [reflexivity | simpl; intuition discriminate]|]);
    (split;
     [intros H;
      first [ eexists; split; [|reflexivity]; simpl; tauto
            | simpl in H; intuition discriminate ]
     | intros (kind & _ & H); first [discriminate H | simpl; tauto] ]).
Qed.

End CachePolicyFacts.

(** ** Nonces *)

Section NonceFacts.
Import SecurityOps.

Lemma join_empty_cons (p : string) (rest : list string) :
  JsStr.join "" (p :: rest) = p +:+ JsStr.join "" rest.
Proof.
  destruct rest as [|q rest]; simpl; [now rewrite append_empty_r | reflexivity].
Qed.

Lemma hex_of_bytes_cons (b : Byte.byte) (bytes : list Byte.byte) :
  hex_of_bytes (b :: bytes)
  = padStart 2 "0" (byte_toString16 b) +:+ hex_of_bytes bytes.
Proof. unfold hex_of_bytes. rewrite map_cons. apply join_empty_cons. Qed.

Lemma hex_pair_shape (b : Byte.byte) :
  String.length (padStart 2 "0" (byte_toString16 b)) = 2%nat
  /\ JsStr.all_chars is_lower_hex (padStart 2 "0" (byte_toString16 b)) = true
  /\ no_dollar (padStart 2 "0" (byte_toString16 b)) = true.
Proof. destruct b; repeat split; reflexivity. Qed.

Lemma all_chars_append (p : ascii -> bool) (a b : string) :
  JsStr.all_chars p (a +:+ b) = JsStr.all_chars p a && JsStr.all_chars p b.
Proof.
  induction a as [|x a IH]; simpl; [reflexivity|].
  now rewrite IH, andb_assoc.
Qed.

Lemma hex_of_bytes_shape (bytes : list Byte.byte) :
  String.length (hex_of_bytes bytes) = (2 * length bytes)%nat
  /\ JsStr.all_chars is_lower_hex (hex_of_bytes bytes) = true
  /\ no_dollar (hex_of_bytes bytes) = true.
Proof.
  induction bytes as [|b bytes (IHl & IHh & IHd)]; [repeat split; reflexivity|].
  rewrite hex_of_bytes_cons.
  destruct (hex_pair_shape b) as (Hl & Hh & Hd).
  unfold no_dollar in *.
  rewrite length_append, !all_chars_append, Hl, Hh, Hd, IHl, IHh, IHd.
  repeat split. simpl. lia.
Qed.

Lemma bytes_of_hex_pair (b : Byte.byte) (rest : string) :
  bytes_of_hex (padStart 2 "0" (byte_toString16 b) +:+ rest)
  = option_map (fun l => b :: l) (bytes_of_hex rest).
Proof. destruct b; simpl; destruct (bytes_of_hex rest); reflexivity. Qed.

Lemma bytes_of_hex_of_bytes (bytes : list Byte.byte) :
  bytes_of_hex (hex_of_bytes bytes) = Some bytes.
Proof.
  induction bytes as [|b bytes IH]; [reflexivity|].
  now rewrite hex_of_bytes_cons, bytes_of_hex_pair, IH.
Qed.

(** X6. On a platform with the Web Crypto API, [generateNonce] of at most
    65536 bytes returns a text of exactly two characters per byte, each a
    digit or a letter from [a] to [f]. Without the API it throws its own
    error, and for more bytes what the platform throws comes out of it
    uncaught. *)
Theorem generateNonce_is_lowercase_hex :
  (forall random len,
      (N.of_nat len <= 65536)%N ->
      exists nonce,
        generateNonce (Some random) len = Returned nonce
        /\ String.length nonce = (2 * len)%nat
        /\ JsStr.all_chars is_lower_hex nonce = true)
  /\ (forall len,
         generateNonce None len = Threw (Error "Web Crypto API not available"))
  /\ (forall random len,
         (65536 < N.of_nat len)%N ->
         generateNonce (Some random) len = Threw PlatformError).
Proof.
  split; [|split; [reflexivity|]]; intros random len Hlen; unfold generateNonce.
  - destruct (N.ltb_spec 65536 (N.of_nat len)); [lia|].
    eexists. split; [reflexivity|].
    destruct (hex_of_bytes_shape (map random (seq 0 len))) as (Hl & Hh & _).
    rewrite Hl, length_map, length_seq. auto.
  - destruct (N.ltb_spec 65536 (N.of_nat len)); [reflexivity | lia].
Qed.

(** X6 for the default of 32 bytes, all of them zero, and for one byte too
    many. *)
Lemma generateNonce_is_lowercase_hex_witness :
  (exists nonce,
      generateNonce (Some (fun _ => Byte.x00)) 32 = Returned nonce
      /\ String.length nonce = (2 * 32)%nat
      /\ JsStr.all_chars is_lower_hex nonce = true)
  /\ generateNonce (Some (fun _ => Byte.x00)) (N.to_nat 65537)
     = Threw PlatformError.
Proof.
  destruct generateNonce_is_lowercase_hex as (Hok & _ & Hquota).
  split.
  - apply Hok. vm_compute. discriminate.
  - apply Hquota. vm_compute. reflexivity.
Defined.

(** X7. The nonce keeps every bit of the random bytes: reading its digit
    pairs gives the bytes back, so two runs return the same nonce only when
    the platform wrote the same byte at every index. *)
Theorem generateNonce_keeps_the_bytes :
  (forall bytes, bytes_of_hex (hex_of_bytes bytes) = Some bytes)
  /\ (forall random1 random2 len,
         (N.of_nat len <= 65536)%N ->
         generateNonce (Some random1) len = generateNonce (Some random2) len ->
         forall i, (i < len)%nat -> random1 i = random2 i).
Proof.
  split; [exact bytes_of_hex_of_bytes|].
  intros random1 random2 len Hlen H i Hi. unfold generateNonce in H.
  destruct (N.ltb_spec 65536 (N.of_nat len)); [lia|].
  injection H as H.
  apply (f_equal bytes_of_hex) in H.
  rewrite !bytes_of_hex_of_bytes in H. injection H as H.
  eapply List.map_ext_in_iff; [exact H | apply in_seq; lia].
Qed.

(** X7 on two sources that write the same two bytes and differ after
    them. *)
Lemma generateNonce_keeps_the_bytes_witness :
  bytes_of_hex (hex_of_bytes [Byte.x00; Byte.xff; Byte.x3c])
  = Some [Byte.x00; Byte.xff; Byte.x3c]
  /\ (fun i : nat => if (i <? 2)%nat then Byte.x2a else Byte.x00) 1%nat
     = (fun _ : nat => Byte.x2a) 1%nat.
Proof.
  destruct generateNonce_keeps_the_bytes as (Hround & Hsame).
  split.
  - apply Hround.
  - apply (Hsame (fun i : nat => if (i <? 2)%nat then Byte.x2a else Byte.x00)
             (fun _ => Byte.x2a) 2%nat);
      [vm_compute; discriminate | reflexivity | lia].
Defined.

End NonceFacts.

(** ** Content security policy with a nonce *)

Section CspNonceFacts.
Import Js Security SecurityOps.

Lemma substitution_no_dollar (rep matched before after : string) :
  no_dollar rep = true -> substitution rep matched before after = rep.
Proof.
  unfold no_dollar.
  induction rep as [|c rep IH]; [reflexivity|].
  cbn [JsStr.all_chars]. intros H. apply andb_true_iff in H as [Hc H].
  specialize (IH H).
  destruct c as [[] [] [] [] [] [] [] []];
    try discriminate Hc; cbn [substitution]; now rewrite IH.
Qed.

Lemma drop_spaces_append_l (a b : string) :
  a <> "" -> JsStr.drop_spaces a = a -> JsStr.drop_spaces (a +:+ b) = a +:+ b.
Proof.
  destruct a as [|c a]; [contradiction|]. intros _. simpl.
  destruct (JsStr.is_space c); [|reflexivity].
  intros H. pose proof (length_drop_spaces a) as Hlen.
  rewrite H in Hlen. simpl in Hlen. lia.
Qed.

Lemma trim_id (s : string) :
  JsStr.drop_spaces s = s ->
  JsStr.drop_spaces (String.rev s) = String.rev s ->
  JsStr.trim s = s.
Proof.
  intros H1 H2. unfold JsStr.trim. now rewrite H1, H2, rev_involutive.
Qed.

Lemma render_nonce_token (nonce : string) :
  nonce <> "" -> no_dollar nonce = true ->
  render_source (Some nonce) "'nonce-{NONCE}'" = "'nonce-" +:+ nonce +:+ "'".
Proof.
  intros Hne Hd. unfold render_source.
  change (JsStr.includes "'nonce-{NONCE}'" "{NONCE}") with true.
  cbn [of_option_string truthy andb default].
  apply String.eqb_neq in Hne. rewrite Hne. cbn [negb].
  unfold replace_first.
  change (split_at_first "{NONCE}" "'nonce-{NONCE}'")
    with (Some ("'nonce-", "'")).
  cbv beta iota. now rewrite substitution_no_dollar.
Qed.

Lemma render_source_unset (nonce : option string) (src : string) :
  truthy (of_option_string nonce) = false -> render_source nonce src = src.
Proof.
  intros H. unfold render_source. rewrite H, andb_false_r.
  now destruct (JsStr.startsWith src "process.env.").
Qed.

Lemma buildCSPHeader_unset (cspConfig : list (string * list string))
    (nonce : option string) :
  truthy (of_option_string nonce) = false ->
  buildCSPHeader cspConfig nonce
  = JsStr.join "; "
      (map (fun entry =>
              JsStr.trim (fst entry +:+ " " +:+ JsStr.join " " (snd entry)))
           cspConfig).
Proof.
  intros H. unfold buildCSPHeader. f_equal.
  apply map_ext. intros [directive sources]. unfold render_directive.
  cbn [fst snd].
  assert (Hsrc : map (render_source nonce) sources = sources).
  { induction sources as [|src sources IH]; [reflexivity|].
    cbn [map]. now rewrite IH, render_source_unset. }
  now rewrite Hsrc.
Qed.

(** X8. A nonce that is not empty and has no [$] is put in the place of the
    placeholder as it is: the header built from [CSP_HEADERS] has the source
    ['nonce-<nonce>'] in [script-src] and is otherwise the header built
    without a nonce. Every nonce that [generateNonce] returns for at least
    one byte is such a nonce. For every policy, an empty nonce is no nonce:
    the placeholder stays as configured. *)
Theorem buildCSPHeader_substitutes_nonce :
  (forall nonce,
      nonce <> "" -> no_dollar nonce = true ->
      buildCSPHeader CSP_HEADERS (Some nonce)
      = "script-src 'self' 'nonce-" +:+ nonce
        +:+ "' https://www.googletagmanager.com https://www.google-analytics.com https://cdn.jsdelivr.net"
        +:+ csp_tail)
  /\ buildCSPHeader CSP_HEADERS None
     = "script-src 'self' 'nonce-{NONCE}"
       +:+ "' https://www.googletagmanager.com https://www.google-analytics.com https://cdn.jsdelivr.net"
       +:+ csp_tail
  /\ (forall random len nonce,
         generateNonce (Some random) (S len) = Returned nonce ->
         nonce <> "" /\ no_dollar nonce = true)
  /\ (forall cspConfig,
         buildCSPHeader cspConfig (Some "") = buildCSPHeader cspConfig None).
Proof.
  split; [|split; [vm_compute; reflexivity|split]].
  - intros nonce Hne Hd.
    assert (Hdir :
      render_directive (Some nonce)
        ("script-src",
         ["'self'"; "'nonce-{NONCE}'"; "https://www.googletagmanager.com";
          "https://www.google-analytics.com"; "https://cdn.jsdelivr.net"])
      = "script-src 'self' 'nonce-" +:+ nonce
        +:+ "' https://www.googletagmanager.com https://www.google-analytics.com https://cdn.jsdelivr.net").
    { unfold render_directive. cbn [map].
      rewrite (render_nonce_token nonce Hne Hd).
      change (render_source (Some nonce) "'self'") with "'self'".
      change (render_source (Some nonce) "https://www.googletagmanager.com")
        with "https://www.googletagmanager.com".
      change (render_source (Some nonce) "https://www.google-analytics.com")
        with "https://www.google-analytics.com".
      change (render_source (Some nonce) "https://cdn.jsdelivr.net")
        with "https://cdn.jsdelivr.net".
      cbn [JsStr.join]. rewrite !append_assoc.
      match goal with
      | |- JsStr.trim ?s = ?t => change s with t
      end.
      apply trim_id; [reflexivity|].
      rewrite !rev_append, !append_assoc.
      apply drop_spaces_append_l; [vm_compute; discriminate|].
      vm_compute. reflexivity. }
    unfold buildCSPHeader, CSP_HEADERS. rewrite map_cons.
    match goal with
    | |- JsStr.join _ (?d :: ?rest) = _ =>
        change (JsStr.join "; " (d :: rest))
          with (d +:+ "; " +:+ JsStr.join "; " rest)
    end.
    rewrite Hdir, !append_assoc.
    do 3 apply (f_equal (String.append _)).
    vm_compute. reflexivity.
  - intros random len nonce H. unfold generateNonce in H.
    destruct (65536 <? N.of_nat (S len))%N; [discriminate|].
    remember (map random (seq 0 (S len))) as bytes eqn:Hbytes.
    injection H as <-.
    destruct (hex_of_bytes_shape bytes) as (Hl & _ & Hd).
    split; [|exact Hd].
    intros Hempty. rewrite Hempty in Hl.
    rewrite Hbytes, length_map, length_seq in Hl. simpl in Hl. lia.
  - intros cspConfig.
    now rewrite !buildCSPHeader_unset by reflexivity.
Qed.

(** X8 on the nonce of one byte [0x2a]. *)
Lemma buildCSPHeader_substitutes_nonce_witness :
  buildCSPHeader CSP_HEADERS (Some "2a")
  = "script-src 'self' 'nonce-" +:+ "2a"
    +:+ "' https://www.googletagmanager.com https://www.google-analytics.com https://cdn.jsdelivr.net"
    +:+ csp_tail
  /\ ("2a" <> "" /\ no_dollar "2a" = true).
Proof.
  destruct buildCSPHeader_substitutes_nonce as (Hsub & _ & Hgen & _).
  split.
  - apply Hsub; [discriminate | reflexivity].
  - apply (Hgen (fun _ => Byte.x2a) 0%nat). reflexivity.
Defined.

End CspNonceFacts.

(** ** The endpoint of the GraphQL client *)

Section EndpointFacts.
Import Js SecurityOps GraphqlClient.
Variable URL_new : Url.Constructor.

Lemma validateApiEndpoint_parsed (endpoint : string) (url : Url.URL)
    (production : bool) :
  URL_new endpoint None = Ok url ->
  validateApiEndpoint URL_new endpoint production
  = negb production
    || String.eqb (Url.protocol url) "https:"
       && negb (String.eqb (Url.hostname url) "localhost")
       && negb (String.eqb (Url.hostname url) "127.0.0.1").
Proof.
  intros H. unfold validateApiEndpoint. rewrite H. cbn [bind].
  destruct production; cbn [andb negb orb]; [|reflexivity].
  destruct (String.eqb (Url.protocol url) "https:"); cbn; [|reflexivity].
  destruct (String.eqb (Url.hostname url) "localhost"); cbn; [reflexivity|].
  destruct (String.eqb (Url.hostname url) "127.0.0.1"); reflexivity.
Qed.

(** X9. For every [URL] constructor: outside production
    [validateApiEndpoint] accepts exactly the endpoints that parse; in
    production it accepts exactly those that parse with the protocol
    [https:] and a host name other than [localhost] and [127.0.0.1]. So
    what production accepts is accepted everywhere, and an endpoint that
    does not parse is refused in both. *)
Theorem validateApiEndpoint_rules (endpoint : string) :
  (validateApiEndpoint URL_new endpoint false = true <->
   exists url, URL_new endpoint None = Ok url)
  /\ (validateApiEndpoint URL_new endpoint true = true <->
      exists url,
        URL_new endpoint None = Ok url
        /\ Url.protocol url = "https:"
        /\ Url.hostname url <> "localhost"
        /\ Url.hostname url <> "127.0.0.1")
  /\ (validateApiEndpoint URL_new endpoint true = true ->
      validateApiEndpoint URL_new endpoint false = true)
  /\ (forall e production,
         URL_new endpoint None = Throw e ->
         validateApiEndpoint URL_new endpoint production = false).
Proof.
  destruct (URL_new endpoint None) as [url|e] eqn:Hparse.
  - rewrite !(validateApiEndpoint_parsed endpoint url _ Hparse).
    cbn [negb orb].
    split; [split; [eauto | reflexivity]|].
    split; [|split; [reflexivity | discriminate]].
    rewrite !andb_true_iff, !negb_true_iff, String.eqb_eq, !String.eqb_neq.
    split.
    + intros [[Hp Hl] Hi]. exists url. auto.
    + intros (url' & Heq & Hp & Hl & Hi). injection Heq as <-. auto.
  - assert (Hfalse : forall production,
               validateApiEndpoint URL_new endpoint production = false)
      by (intros production; unfold validateApiEndpoint; now rewrite Hparse).
    rewrite !Hfalse.
    split; [split; [discriminate | intros [url H]; discriminate]|].
    split; [split; [discriminate | intros (url & H & _); discriminate]|].
    split; [discriminate | intros; apply Hfalse].
Qed.


End EndpointFacts.

Section EndpointExamples.
Import Js SecurityOps GraphqlClient.

(** X9 on a secure endpoint and on one that does not parse. *)
Lemma validateApiEndpoint_rules_witness :
  validateApiEndpoint UrlModel.URL_new "https://cms.example.com/graphql" false
  = true
  /\ validateApiEndpoint UrlModel.URL_new "not-a-url" true = false.
Proof.
  split.
  - apply (validateApiEndpoint_rules UrlModel.URL_new
             "https://cms.example.com/graphql").
    vm_compute. reflexivity.
  - apply (validateApiEndpoint_rules UrlModel.URL_new "not-a-url") with TypeError.
    vm_compute. reflexivity.
Defined.


End EndpointExamples.

(** ** Security logging *)

Section SecurityLogFacts.
Import Js SecurityOps.

(** X11. Whatever details the caller passes, the details [logSecurityEvent]
    logs have [[REDACTED]] under [password], [token], [secret] and
    [apiKey], also when the caller passed none of them, and every other key
    as the caller passed it. The call goes to [console.error] exactly when
    [NODE_ENV] is [production]. *)
Theorem logSecurityEvent_redacts (now : string) (node_env : option string)
    (event : string) (event_details : gmap string value) (sev : Severity) :
  Forall (fun k =>
            details (logSecurityEvent now node_env event event_details sev) !! k
            = Some (VStr "[REDACTED]"))
         ["password"; "token"; "secret"; "apiKey"]
  /\ (forall k,
         ~ In k ["password"; "token"; "secret"; "apiKey"] ->
         details (logSecurityEvent now node_env event event_details sev) !! k
         = event_details !! k)
  /\ (method (logSecurityEvent now node_env event event_details sev)
      = console_error <-> node_env = Some "production").
Proof.
  unfold logSecurityEvent. cbn [details method].
  split; [|split].
  - repeat (apply Forall_cons; split;
            [repeat (rewrite lookup_insert_ne by discriminate);
             apply lookup_insert_eq|]).
    constructor.
  - intros k Hk. cbn [In] in Hk.
    rewrite !lookup_insert_ne by (intros <-; tauto). reflexivity.
  - destruct (decide (node_env = Some "production")) as [H|H];
      split; intros; [assumption | reflexivity | discriminate | contradiction].
Qed.

End SecurityLogFacts.

(** ** The safe environment *)

Section SafeEnvFacts.
Import EnvOps.
Variable vars : gmap string string.

(** Every entry of [m] is an entry of [vars] with a value that is not
    empty. *)
Local Abbreviation set_entries_of m :=
  (forall k v, m !! k = Some v -> vars !! k = Some v /\ v <> "").

Lemma copy_if_set_lookup (k0 : string) (m : gmap string string) :
  set_entries_of m ->
  set_entries_of (copy_if_set vars k0 m)
  /\ forall k v,
       copy_if_set vars k0 m !! k = Some v <->
       m !! k = Some v \/ (k = k0 /\ vars !! k = Some v /\ v <> "").
Proof.
  intros Hm. unfold copy_if_set.
  destruct (vars !! k0) as [v0|] eqn:Hv0;
    [destruct (String.eqb_spec v0 "") as [->|Hne]|].
  - split; [exact Hm|]. intros k v. split; [auto|].
    intros [H|(-> & H & Hv)]; [exact H|]. congruence.
  - split.
    + intros k v. rewrite lookup_insert. case_decide as Hk.
      * intros [= <-]. subst k. auto.
      * apply Hm.
    + intros k v. rewrite lookup_insert. case_decide as Hk.
      * subst k. split.
        -- intros [= <-]. right. auto.
        -- intros [H|(_ & H & _)]; [apply Hm in H as [H _]|]; congruence.
      * split; [auto|]. intros [H|(-> & _)]; [exact H | contradiction].
  - split; [exact Hm|]. intros k v. split; [auto|].
    intros [H|(-> & H & Hv)]; [exact H|]. congruence.
Qed.

(** X12. [getSafeEnvVars] exposes a variable exactly when it is set to a
    value that is not empty and its name starts with [PUBLIC_] or is one of
    [SITE_URL], [SITE_TITLE], [SITE_DESCRIPTION], [SITE_NAME] and
    [SITE_COPYRIGHT], and it exposes it with its value. So the secret and
    the endpoint are never in the result, whatever the environment. *)
Theorem getSafeEnvVars_exposes_only_public :
  (forall k v,
      getSafeEnvVars vars !! k = Some v <->
      vars !! k = Some v /\ v <> ""
      /\ (JsStr.startsWith k "PUBLIC_" = true
          \/ In k ["SITE_URL"; "SITE_TITLE"; "SITE_DESCRIPTION"; "SITE_NAME";
                   "SITE_COPYRIGHT"]))
  /\ getSafeEnvVars vars !! "REVALIDATE_SECRET" = None
  /\ getSafeEnvVars vars !! "WPGRAPHQL_ENDPOINT" = None.
Proof.
  assert (Hfilter : forall k v,
    filter (fun kv : string * string =>
              JsStr.startsWith (fst kv) "PUBLIC_"
              && negb (String.eqb (snd kv) "") = true) vars !! k = Some v <->
    vars !! k = Some v /\ v <> "" /\ JsStr.startsWith k "PUBLIC_" = true).
  { intros k v. rewrite map_lookup_filter_Some. cbn [fst snd].
    rewrite andb_true_iff, negb_true_iff, String.eqb_neq. tauto. }
  assert (H0 : set_entries_of
                 (filter (fun kv : string * string =>
                            JsStr.startsWith (fst kv) "PUBLIC_"
                            && negb (String.eqb (snd kv) "") = true) vars)).
  { intros k v H. apply Hfilter in H. tauto. }
  assert (Hall : forall k v,
    getSafeEnvVars vars !! k = Some v <->
    vars !! k = Some v /\ v <> ""
    /\ (JsStr.startsWith k "PUBLIC_" = true
        \/ In k ["SITE_URL"; "SITE_TITLE"; "SITE_DESCRIPTION"; "SITE_NAME";
                 "SITE_COPYRIGHT"])).
  { intros k v. unfold getSafeEnvVars.
    destruct (copy_if_set_lookup "SITE_URL" _ H0) as [H1 L1].
    destruct (copy_if_set_lookup "SITE_TITLE" _ H1) as [H2 L2].
    destruct (copy_if_set_lookup "SITE_DESCRIPTION" _ H2) as [H3 L3].
    destruct (copy_if_set_lookup "SITE_NAME" _ H3) as [H4 L4].
    destruct (copy_if_set_lookup "SITE_COPYRIGHT" _ H4) as [_ L5].
    rewrite L5, L4, L3, L2, L1, Hfilter. cbn [In].
    split.
    - intros H; repeat destruct H as [H|H]; intuition (subst; auto).
    - intros (Hv & Hne & [Hp|Hin]); [tauto|].
      repeat destruct Hin as [<-|Hin]; try tauto; destruct Hin. }
  split; [exact Hall|].
  split; apply eq_None_not_Some; intros [v Hv];
    apply Hall in Hv as (_ & _ & [Hp|Hin]);
    try discriminate Hp; cbn in Hin; intuition discriminate.
Qed.

End SafeEnvFacts.

(** ** The configuration gate, entry by entry *)

Section GateEntryFacts.
Variable vars : gmap string string.

Lemma no_failure_iff {A B : Type} (f : A -> B) (p : A -> bool) (l : list A) :
  Nat.eqb (length (map f (List.filter p l))) 0 = forallb (fun a => negb (p a)) l.
Proof.
  induction l as [|a l IH]; [reflexivity|].
  cbn [List.filter forallb]. destruct (p a); [reflexivity | exact IH].
Qed.

Lemma lib_fold_collects table st :
  let st' := fold_left (EnvValidation.check_variable vars) table st in
  EnvValidation.c_missing st'
  = EnvValidation.c_missing st ++ map fst (List.filter (lib_missing vars) table)
  /\ map EnvValidation.variable (EnvValidation.c_errors st')
     = map EnvValidation.variable (EnvValidation.c_errors st)
       ++ map fst (List.filter
                     (fun e => lib_missing vars e || lib_invalid vars e) table)
  /\ EnvValidation.c_warnings st'
     = EnvValidation.c_warnings st
       ++ map (fun e => "Optional variable not set: " +:+ fst e)
              (List.filter (lib_optional_unset vars) table)
  /\ EnvValidation.invoked st'
     = EnvValidation.invoked st
       ++ map fst (List.filter
                     (fun e => negb (EnvValidation.unset (vars !! fst e))) table).
Proof.
  revert st. induction table as [|[name cfg] table IH]; intros st.
  - cbn. now rewrite !app_nil_r.
  - cbn [fold_left].
    destruct (IH (EnvValidation.check_variable vars st (name, cfg)))
      as (Hm & He & Hw & Hi).
    cbn zeta. rewrite Hm, He, Hw, Hi. clear IH Hm He Hw Hi.
    cbn [List.filter]. unfold lib_missing, lib_invalid, lib_optional_unset,
      EnvValidation.check_variable. cbn [fst snd].
    destruct (EnvValidation.unset (vars !! name));
      [destruct (EnvValidation.required cfg)
      |destruct (EnvValidation.validate cfg (default "" (vars !! name)))];
      cbn; rewrite ?map_app, <- ?app_assoc, ?app_nil_r; repeat split;
      reflexivity.
Qed.

Lemma script_fold_collects table st :
  let st' := fold_left (ValidateEnvScript.check_variable vars) table st in
  ValidateEnvScript.c_missing st'
  = ValidateEnvScript.c_missing st
    ++ map fst (List.filter (script_missing vars) table)
  /\ map ValidateEnvScript.variable (ValidateEnvScript.c_errors st')
     = map ValidateEnvScript.variable (ValidateEnvScript.c_errors st)
       ++ map fst (List.filter (script_invalid vars) table).
Proof.
  revert st. induction table as [|[name cfg] table IH]; intros st.
  - cbn. now rewrite !app_nil_r.
  - cbn [fold_left].
    destruct (IH (ValidateEnvScript.check_variable vars st (name, cfg)))
      as (Hm & He).
    cbn zeta. rewrite Hm, He. clear IH Hm He.
    cbn [List.filter]. unfold script_missing, script_invalid,
      ValidateEnvScript.check_variable. cbn [fst snd].
    destruct (ValidateEnvScript.required cfg);
      destruct (ValidateEnvScript.unset (vars !! name)); cbn;
      try (destruct (ValidateEnvScript.validate cfg) as [v|]; cbn;
           try destruct (v (default "" (vars !! name))); cbn);
      rewrite ?map_app, <- ?app_assoc, ?app_nil_r; split; reflexivity.
Qed.

(** X13. The library's [validateEnvVars] goes through the whole table and
    reports every entry on its own: [missingVariables] are the required
    entries that are unset (absent, empty or only white space), in table
    order; [errors] has one entry for each of those and one for each set
    variable that its validator refuses, in table order; [warnings] has one
    line for each optional entry that is unset; the validators called are
    those of the set variables. The environment is valid exactly when no
    entry is missing or invalid, so an optional variable that is unset
    never makes it invalid. *)
Theorem validateEnvVars_entry_by_entry
    (table : list (string * EnvValidation.EnvVarConfig)) :
  EnvValidation.missingVariables (EnvValidation.validateEnvVarsWith table vars)
  = map fst (List.filter (lib_missing vars) table)
  /\ map EnvValidation.variable
       (EnvValidation.errors (EnvValidation.validateEnvVarsWith table vars))
     = map fst (List.filter
                  (fun e => lib_missing vars e || lib_invalid vars e) table)
  /\ EnvValidation.warnings (EnvValidation.validateEnvVarsWith table vars)
     = map (fun e => "Optional variable not set: " +:+ fst e)
           (List.filter (lib_optional_unset vars) table)
  /\ EnvValidation.invoked (EnvValidation.run table vars)
     = map fst (List.filter
                  (fun e => negb (EnvValidation.unset (vars !! fst e))) table)
  /\ EnvValidation.isValid (EnvValidation.validateEnvVarsWith table vars)
     = forallb (fun e => negb (lib_missing vars e || lib_invalid vars e)) table.
Proof.
  destruct (lib_fold_collects table EnvValidation.nothing) as (Hm & He & Hw & Hi).
  cbn [EnvValidation.nothing EnvValidation.c_missing EnvValidation.c_errors
       EnvValidation.c_warnings EnvValidation.invoked map app] in Hm, He, Hw, Hi.
  unfold EnvValidation.validateEnvVarsWith, EnvValidation.result_of,
    EnvValidation.run.
  cbn [EnvValidation.missingVariables EnvValidation.errors
       EnvValidation.warnings EnvValidation.isValid].
  repeat match goal with |- _ /\ _ => split end; try assumption.
  rewrite <- no_failure_iff with (f := fst), <- He, length_map. reflexivity.
Qed.

(** X14. The build script's [validateEnvVars] reports entry by entry too:
    [missingVariables] are the required entries that are absent or empty, in
    table order, and [errors] has one entry for each variable that is set
    and that its validator refuses, and none for a missing one; it never
    warns. The environment is valid exactly when no entry is missing or
    invalid. *)
Theorem script_validateEnvVars_entry_by_entry
    (table : list (string * ValidateEnvScript.EnvVarConfig)) :
  ValidateEnvScript.missingVariables
    (ValidateEnvScript.validateEnvVarsWith table vars)
  = map fst (List.filter (script_missing vars) table)
  /\ map ValidateEnvScript.variable
       (ValidateEnvScript.errors
          (ValidateEnvScript.validateEnvVarsWith table vars))
     = map fst (List.filter (script_invalid vars) table)
  /\ ValidateEnvScript.warnings
       (ValidateEnvScript.validateEnvVarsWith table vars) = []
  /\ ValidateEnvScript.isValid
       (ValidateEnvScript.validateEnvVarsWith table vars)
     = forallb (fun e => negb (script_missing vars e || script_invalid vars e))
         table.
Proof.
  destruct (script_fold_collects table ValidateEnvScript.nothing) as (Hm & He).
  cbn [ValidateEnvScript.nothing ValidateEnvScript.c_missing
       ValidateEnvScript.c_errors map app] in Hm, He.
  unfold ValidateEnvScript.validateEnvVarsWith, ValidateEnvScript.result_of,
    ValidateEnvScript.run.
  cbn [ValidateEnvScript.missingVariables ValidateEnvScript.errors
       ValidateEnvScript.warnings ValidateEnvScript.isValid].
  repeat match goal with |- _ /\ _ => split end; try assumption; [reflexivity|].
  rewrite <- (length_map ValidateEnvScript.variable), He, Hm, !no_failure_iff.
  clear. induction table as [|e table IH]; [reflexivity|].
  cbn [forallb]. rewrite <- IH, negb_orb.
  destruct (script_invalid vars e), (script_missing vars e); cbn;
    rewrite ?andb_false_r; try reflexivity;
    now destruct (forallb _ table), (forallb _ table).
Qed.

End GateEntryFacts.

(** ** The build script's gate *)

Section ScriptGateFacts.
Import ValidateEnvScriptGate.
Variable vars : gmap string string.

Lemma includes_prefix (s p : string) :
  String.prefix p s = true -> JsStr.includes s p = true.
Proof. intros H. destruct s; cbn [JsStr.includes]; now rewrite H. Qed.

Lemma includes_join (sep x : string) (l : list string) :
  In x l -> JsStr.includes (JsStr.join sep l) x = true.
Proof.
  induction l as [|p l IH]; [intros []|].
  intros Hin. destruct l as [|q l].
  - destruct Hin as [->|[]]. cbn [JsStr.join].
    apply includes_prefix. rewrite <- (append_empty_r x) at 2.
    apply prefix_append.
  - change (JsStr.join sep (p :: q :: l))
      with (p +:+ sep +:+ JsStr.join sep (q :: l)).
    destruct Hin as [->|Hin].
    + apply includes_prefix, prefix_append.
    + now apply includes_append_r, includes_append_r, IH.
Qed.

Lemma join_starts (sep h : string) (rest : list string) :
  JsStr.startsWith (JsStr.join sep (h :: rest)) h = true.
Proof.
  unfold JsStr.startsWith. destruct rest as [|q rest].
  - cbn [JsStr.join]. rewrite <- (append_empty_r h) at 2. apply prefix_append.
  - change (JsStr.join sep (h :: q :: rest))
      with (h +:+ sep +:+ JsStr.join sep (q :: rest)).
    apply prefix_append.
Qed.

Lemma script_errors_grow table st :
  incl (ValidateEnvScript.c_errors st)
       (ValidateEnvScript.c_errors
          (fold_left (ValidateEnvScript.check_variable vars) table st)).
Proof.
  revert st. induction table as [|[name cfg] table IH]; intros st; cbn.
  - apply incl_refl.
  - eapply incl_tran; [|apply IH].
    unfold ValidateEnvScript.check_variable.
    destruct (ValidateEnvScript.required cfg
              && ValidateEnvScript.unset (vars !! name)); [apply incl_refl|].
    destruct (negb (ValidateEnvScript.required cfg)
              && ValidateEnvScript.unset (vars !! name)); [apply incl_refl|].
    destruct (ValidateEnvScript.validate cfg) as [v|]; [|apply incl_refl].
    cbn. destruct (v (default "" (vars !! name)));
      [apply incl_refl | apply incl_appl, incl_refl].
Qed.

Lemma script_fold_reports_invalid table st name cfg v value :
  In (name, cfg) table ->
  vars !! name = Some value ->
  value <> "" ->
  ValidateEnvScript.validate cfg = Some v ->
  v value = false ->
  In {| ValidateEnvScript.variable := name;
        ValidateEnvScript.message := ValidateEnvScript.message_of cfg name |}
     (ValidateEnvScript.c_errors
        (fold_left (ValidateEnvScript.check_variable vars) table st)).
Proof.
  intros Hin Hval Hne Hv Hbad. revert st.
  induction table as [|entry table IH]; intros st; [destruct Hin|].
  destruct Hin as [->|Hin]; [|apply (IH Hin)].
  cbn [fold_left]. apply script_errors_grow.
  unfold ValidateEnvScript.check_variable. rewrite Hval, Hv.
  cbn [ValidateEnvScript.unset default from_option id].
  apply String.eqb_neq in Hne. rewrite Hne, !andb_false_r.
  change (default "" (Some value)) with value. rewrite Hbad. cbn.
  apply in_or_app. right. left. reflexivity.
Qed.

(** X15. The script's [validateEnvVarsOrThrow] passes exactly when the
    validation result is valid, and throws otherwise. What it throws
    starts with the line [Environment validation failed:] and has a line
    for every required variable that is absent or empty, and a line with
    the validator's message for every set variable that its validator
    refuses. *)
Theorem script_gate_reports_every_failure
    (table : list (string * ValidateEnvScript.EnvVarConfig)) :
  (validateEnvVarsOrThrowWith table vars = Passed <->
   ValidateEnvScript.isValid
     (ValidateEnvScript.validateEnvVarsWith table vars) = true)
  /\ (forall m,
         validateEnvVarsOrThrowWith table vars = Thrown m ->
         JsStr.startsWith m "Environment validation failed:" = true)
  /\ (forall name cfg,
         In (name, cfg) table ->
         ValidateEnvScript.required cfg = true ->
         vars !! name = None \/ vars !! name = Some "" ->
         exists m,
           validateEnvVarsOrThrowWith table vars = Thrown m
           /\ JsStr.includes m ("- Missing required variable: " +:+ name)
              = true)
  /\ (forall name cfg v value,
         In (name, cfg) table ->
         vars !! name = Some value ->
         value <> "" ->
         ValidateEnvScript.validate cfg = Some v ->
         v value = false ->
         exists m,
           validateEnvVarsOrThrowWith table vars = Thrown m
           /\ JsStr.includes m
                ("- " +:+ name +:+ ": "
                 +:+ ValidateEnvScript.message_of cfg name) = true).
Proof.
  assert (Hthrown : forall line,
    In line
       (map (fun v => "- Missing required variable: " +:+ v)
            (ValidateEnvScript.missingVariables
               (ValidateEnvScript.validateEnvVarsWith table vars))
        ++ map (fun e => "- " +:+ ValidateEnvScript.variable e +:+ ": "
                         +:+ ValidateEnvScript.message e)
               (ValidateEnvScript.errors
                  (ValidateEnvScript.validateEnvVarsWith table vars))) ->
    ValidateEnvScript.isValid
      (ValidateEnvScript.validateEnvVarsWith table vars) = false ->
    exists m,
      validateEnvVarsOrThrowWith table vars = Thrown m
      /\ JsStr.includes m line = true).
  { intros line Hin Hinvalid. unfold validateEnvVarsOrThrowWith.
    cbn zeta. rewrite Hinvalid. cbn [negb].
    eexists. split; [reflexivity|].
    apply includes_join. right. exact Hin. }
  split; [|split; [|split]].
  - unfold validateEnvVarsOrThrowWith. cbn zeta.
    destruct (ValidateEnvScript.isValid _); cbn [negb];
      split; intros; (reflexivity || discriminate).
  - intros m. unfold validateEnvVarsOrThrowWith. cbn zeta.
    destruct (negb _); [|discriminate]. intros H. injection H as H.
    rewrite <- H. apply (join_starts newline "Environment validation failed:").
  - intros name cfg Hin Hreq Hmissing.
    pose proof (script_fold_reports_missing vars table ValidateEnvScript.nothing
                  name cfg Hin Hreq
                  (proj2 (absent_or_empty_unset vars name Hmissing))) as Hm.
    apply Hthrown.
    + apply in_or_app. left.
      apply (in_map (fun v => "- Missing required variable: " +:+ v)). exact Hm.
    + unfold ValidateEnvScript.validateEnvVarsWith, ValidateEnvScript.result_of,
        ValidateEnvScript.run. cbn.
      destruct (ValidateEnvScript.c_missing _); [destruct Hm|].
      apply andb_false_r.
  - intros name cfg v value Hin Hval Hne Hv Hbad.
    pose proof (script_fold_reports_invalid table ValidateEnvScript.nothing
                  name cfg v value Hin Hval Hne Hv Hbad) as He.
    apply Hthrown.
    + apply in_or_app. right.
      apply (in_map (fun e => "- " +:+ ValidateEnvScript.variable e +:+ ": "
                              +:+ ValidateEnvScript.message e)) in He.
      exact He.
    + unfold ValidateEnvScript.validateEnvVarsWith, ValidateEnvScript.result_of,
        ValidateEnvScript.run. cbn.
      destruct (ValidateEnvScript.c_errors _); [destruct He | reflexivity].
Qed.

End ScriptGateFacts.

Section ScriptGateExamples.
Import ValidateEnvScriptGate.

(** X15 on the script's table: nothing is set but a secret of five
    characters. *)
Lemma script_gate_reports_every_failure_witness :
  (exists m,
      validateEnvVarsOrThrow UrlModel.URL_new (<["REVALIDATE_SECRET" := "short"]> ∅)
      = Thrown m
      /\ JsStr.includes m ("- Missing required variable: " +:+ "SITE_URL") = true)
  /\ (exists m,
         validateEnvVarsOrThrow UrlModel.URL_new
           (<["REVALIDATE_SECRET" := "short"]> ∅) = Thrown m
         /\ JsStr.includes m
              ("- " +:+ "REVALIDATE_SECRET" +:+ ": "
               +:+ "Must be at least 8 characters long") = true).
Proof.
  destruct (script_gate_reports_every_failure
              (<["REVALIDATE_SECRET" := "short"]> ∅)
              (ValidateEnvScript.REQUIRED_ENV_VARS UrlModel.URL_new))
    as (_ & _ & Hmissing & Hinvalid).
  unfold validateEnvVarsOrThrow.
  split.
  - refine (Hmissing "SITE_URL"
              {| ValidateEnvScript.required := true;
                 ValidateEnvScript.validate :=
                   Some (ValidateEnvScript.is_url UrlModel.URL_new);
                 ValidateEnvScript.errorMessage := Some "Must be a valid URL" |}
              _ _ _).
    + right. right. left. reflexivity.
    + reflexivity.
    + left. reflexivity.
  - refine (Hinvalid "REVALIDATE_SECRET"
              {| ValidateEnvScript.required := true;
                 ValidateEnvScript.validate :=
                   Some (fun value =>
                           ValidateEnvScript.nonempty value
                           && (8 <=? String.length value)%nat);
                 ValidateEnvScript.errorMessage :=
                   Some "Must be at least 8 characters long" |}
              _ "short" _ _ _ _ _).
    + right. left. reflexivity.
    + reflexivity.
    + discriminate.
    + reflexivity.
    + reflexivity.
Defined.

End ScriptGateExamples.

(** ** From the gate to the client *)

Section GateToClientFacts.
Import Js GraphqlClient.

Lemma lib_valid_entry (vars : gmap string string)
    (table : list (string * EnvValidation.EnvVarConfig)) name cfg :
  EnvValidation.isValid (EnvValidation.validateEnvVarsWith table vars) = true ->
  In (name, cfg) table ->
  EnvValidation.required cfg = true ->
  exists value,
    vars !! name = Some value
    /\ EnvValidation.unset (Some value) = false
    /\ EnvValidation.validate cfg value = true.
Proof.
  intros Hvalid Hin Hreq.
  destruct (lib_fold_collects vars table EnvValidation.nothing) as (_ & He & _).
  cbn [EnvValidation.nothing EnvValidation.c_errors map app] in He.
  unfold EnvValidation.validateEnvVarsWith, EnvValidation.result_of,
    EnvValidation.run in Hvalid.
  cbn [EnvValidation.isValid] in Hvalid.
  rewrite <- (length_map EnvValidation.variable), He, no_failure_iff in Hvalid.
  rewrite forallb_forall in Hvalid. specialize (Hvalid (name, cfg) Hin).
  unfold lib_missing, lib_invalid in Hvalid. cbn [fst snd] in Hvalid.
  rewrite Hreq, andb_true_r in Hvalid.
  destruct (vars !! name) as [value|] eqn:Hvalue; [|discriminate].
  exists value. destruct (EnvValidation.unset (Some value)); [discriminate|].
  cbn in Hvalid. rewrite negb_true_iff, negb_false_iff in Hvalid. auto.
Qed.

(** X16. An environment that the library's [validateEnvVars] finds valid
    has an endpoint, and [initializeGraphQLClient] never reports it as not
    configured: outside production it creates the client for that endpoint,
    and in production it creates the client or refuses the endpoint as
    invalid, which the gate does not rule out, since it does not ask for
    [https:]. *)
Theorem valid_environment_yields_client
    (URL_new : Url.Constructor) (vars : gmap string string)
    (node_env : option string)
    (Hvalid : EnvValidation.isValid (EnvValidation.validateEnvVars URL_new vars)
              = true) :
  exists e,
    vars !! "WPGRAPHQL_ENDPOINT" = Some e
    /\ (initializeGraphQLClient URL_new false (Some e) node_env
        = Created {| url := e; headers := [("Content-Type", "application/json")] |}
        \/ EnvOps.isProduction node_env = true
           /\ initializeGraphQLClient URL_new false (Some e) node_env
              = Failed (invalid_endpoint e))
    /\ (EnvOps.isProduction node_env = false ->
        initializeGraphQLClient URL_new false (Some e) node_env
        = Created {| url := e; headers := [("Content-Type", "application/json")] |}).
Proof.
  destruct (lib_valid_entry vars (EnvValidation.REQUIRED_ENV_VARS URL_new)
              "WPGRAPHQL_ENDPOINT"
              {| EnvValidation.required := true;
                 EnvValidation.validate := EnvValidation.is_url URL_new;
                 EnvValidation.errorMessage :=
                   "Must be a valid URL to WordPress GraphQL endpoint";
                 EnvValidation.description :=
                   "WordPress GraphQL API endpoint URL" |}
              Hvalid (or_introl eq_refl) eq_refl)
    as (e & He & Hset & Hurl).
  cbn [EnvValidation.validate] in Hurl. unfold EnvValidation.is_url in Hurl.
  destruct (URL_new e None) as [parsed|err] eqn:Hparse; [|discriminate].
  exists e. split; [exact He|].
  unfold initializeGraphQLClient. rewrite Hset.
  change (default "" (Some e)) with e.
  rewrite (validateApiEndpoint_parsed URL_new e parsed _ Hparse).
  destruct (EnvOps.isProduction node_env); cbn [negb orb].
  - split; [|discriminate].
    destruct (String.eqb (Url.protocol parsed) "https:"
              && negb (String.eqb (Url.hostname parsed) "localhost")
              && negb (String.eqb (Url.hostname parsed) "127.0.0.1"));
      cbn [negb]; auto.
  - auto.
Qed.

End GateToClientFacts.

Section GateExamples.
Import Js GraphqlClient.

(** X16 on an environment whose endpoint is not secure: a client outside
    production. *)
Lemma valid_environment_yields_client_witness :
  exists e,
    example_environment !! "WPGRAPHQL_ENDPOINT" = Some e
    /\ (initializeGraphQLClient UrlModel.URL_new false (Some e) (Some "development")
        = Created {| url := e; headers := [("Content-Type", "application/json")] |}
        \/ EnvOps.isProduction (Some "development") = true
           /\ initializeGraphQLClient UrlModel.URL_new false (Some e)
                (Some "development")
              = Failed (invalid_endpoint e))
    /\ (EnvOps.isProduction (Some "development") = false ->
        initializeGraphQLClient UrlModel.URL_new false (Some e)
          (Some "development")
        = Created {| url := e; headers := [("Content-Type", "application/json")] |}).
Proof.
  apply (valid_environment_yields_client UrlModel.URL_new example_environment
           (Some "development")).
  vm_compute. reflexivity.
Defined.

(** X17. A required variable whose value is not empty and is only white
    space divides the two gates, whatever the tables: the library reports
    it missing and the environment invalid; for the script it is not
    missing. *)
Theorem blank_value_divides_the_gates
    (vars : gmap string string) (name value : string)
    (Hvalue : vars !! name = Some value)
    (Hnonempty : value <> "")
    (Hblank : JsStr.trim value = "") :
  (forall table cfg,
      In (name, cfg) table ->
      EnvValidation.required cfg = true ->
      In name (EnvValidation.missingVariables
                 (EnvValidation.validateEnvVarsWith table vars))
      /\ EnvValidation.isValid (EnvValidation.validateEnvVarsWith table vars)
         = false)
  /\ (forall table,
         ~ In name (ValidateEnvScript.missingVariables
                      (ValidateEnvScript.validateEnvVarsWith table vars))).
Proof.
  split.
  - intros table cfg Hin Hreq.
    assert (Hunset : EnvValidation.unset (vars !! name) = true).
    { rewrite Hvalue. cbn. rewrite Hblank. apply orb_true_r. }
    destruct (lib_fold_reports_missing vars table EnvValidation.nothing
                name cfg Hin Hreq Hunset) as (Hm & e & He & _).
    split; [exact Hm|].
    unfold EnvValidation.validateEnvVarsWith, EnvValidation.result_of,
      EnvValidation.run. cbn.
    destruct (EnvValidation.c_errors _); [destruct He | reflexivity].
  - intros table Hin.
    destruct (script_fold_collects vars table ValidateEnvScript.nothing)
      as (Hm & _).
    cbn [ValidateEnvScript.nothing ValidateEnvScript.c_missing app] in Hm.
    unfold ValidateEnvScript.validateEnvVarsWith, ValidateEnvScript.result_of,
      ValidateEnvScript.run in Hin.
    cbn [ValidateEnvScript.missingVariables] in Hin. rewrite Hm in Hin.
    apply in_map_iff in Hin as ([n cfg] & Hn & Hf).
    apply filter_In in Hf as [_ Hf]. cbn in Hn. subst n.
    unfold script_missing in Hf. cbn [fst snd] in Hf.
    rewrite Hvalue in Hf. cbn in Hf.
    apply String.eqb_neq in Hnonempty. rewrite Hnonempty, andb_false_r in Hf.
    discriminate.
Qed.

(** X17 on the tables of the repository, with a title of three spaces in an
    environment that is otherwise complete. *)
Lemma blank_value_divides_the_gates_witness :
  (In "SITE_TITLE"
      (EnvValidation.missingVariables
         (EnvValidation.validateEnvVars UrlModel.URL_new
            (<["SITE_TITLE" := "   "]> example_environment)))
   /\ EnvValidation.isValid
        (EnvValidation.validateEnvVars UrlModel.URL_new
           (<["SITE_TITLE" := "   "]> example_environment)) = false)
  /\ ~ In "SITE_TITLE"
       (ValidateEnvScript.missingVariables
          (ValidateEnvScript.validateEnvVars UrlModel.URL_new
             (<["SITE_TITLE" := "   "]> example_environment))).
Proof.
  destruct (blank_value_divides_the_gates
              (<["SITE_TITLE" := "   "]> example_environment)
              "SITE_TITLE" "   ")
    as [Hlib Hscript]; [reflexivity | discriminate | reflexivity|].
  split.
  - apply (Hlib (EnvValidation.REQUIRED_ENV_VARS UrlModel.URL_new)
             {| EnvValidation.required := true;
                EnvValidation.validate :=
                  fun value => (0 <? String.length value)%nat;
                EnvValidation.errorMessage := "Cannot be empty";
                EnvValidation.description := "Website title" |});
      [do 3 right; left; reflexivity | reflexivity].
  - apply Hscript.
Defined.

End GateExamples.

(** ** XML escaping *)

Section EscapeXmlFacts.
Import SitemapNews.

Ltac each_char c :=
  repeat match goal with
         | |- context [Ascii.eqb c ?k] =>
             let E := fresh "E" in
             destruct (Ascii.eqb c k) eqn:E;
             [apply Ascii.eqb_eq in E; subst c|]
         end.

Ltac distinct_chars :=
  repeat match goal with
         | H : Ascii.eqb _ _ = false |- _ => rewrite H; clear H
         end.

Lemma escapeXml_each (s : string) : escapeXml s = xml_escape_all s.
Proof.
  unfold escapeXml.
  induction s as [|c s IH]; [reflexivity|].
  cbn [JsStr.replace_all xml_escape_all]. unfold xml_escape.
  destruct (Ascii.eqb c "&") eqn:E1;
    [|cbn [JsStr.replace_all]; destruct (Ascii.eqb c "<") eqn:E2;
      [|cbn [JsStr.replace_all]; destruct (Ascii.eqb c ">") eqn:E3;
        [|cbn [JsStr.replace_all]; destruct (Ascii.eqb c JsStr.dquote) eqn:E4;
          [|cbn [JsStr.replace_all]; destruct (Ascii.eqb c "'") eqn:E5]]]];
    rewrite ?replace_all_append, IH; reflexivity.
Qed.

Lemma xml_safe_escape (c : ascii) (rest : string) :
  xml_safe (xml_escape c +:+ rest) = xml_safe rest.
Proof.
  unfold xml_escape. each_char c; simpl; rewrite ?prefix_empty_l;
    try reflexivity.
  unfold xml_special. now distinct_chars.
Qed.

Lemma xml_escape_plain (c : ascii) :
  xml_special c = false -> xml_escape c = String c "".
Proof.
  unfold xml_special, xml_escape. intros H.
  repeat (apply orb_false_iff in H as [H ?]). now distinct_chars.
Qed.

(** X18. [escapeXml], which the news sitemap applies to every title,
    replaces each of [&], [<], [>], the double quote and ['] by its entity,
    the ampersand first, and leaves every other character, the slash
    included, as it is. Its result has none of the four other characters, and
    each ampersand in it opens one of the five entities; a text without the
    five characters comes back unchanged. *)
Theorem escapeXml_is_safe :
  (forall s, escapeXml s = xml_escape_all s)
  /\ (forall s, xml_safe (escapeXml s) = true)
  /\ (forall s, JsStr.all_chars (fun c => negb (xml_special c)) s = true ->
                escapeXml s = s)
  /\ (forall c, xml_special c = false -> xml_escape c = String c "")
  /\ (xml_escape "&" = "&amp;" /\ xml_escape "<" = "&lt;"
      /\ xml_escape ">" = "&gt;" /\ xml_escape JsStr.dquote = "&quot;"
      /\ xml_escape "'" = "&apos;").
Proof.
  split; [exact escapeXml_each|].
  split; [|split; [|split; [exact xml_escape_plain | repeat split; reflexivity]]].
  - intros s. rewrite escapeXml_each.
    induction s as [|c s IH]; [reflexivity|].
    cbn [xml_escape_all]. now rewrite xml_safe_escape.
  - intros s H. rewrite escapeXml_each.
    induction s as [|c s IH]; [reflexivity|].
    cbn [JsStr.all_chars] in H. apply andb_true_iff in H as [Hc H].
    apply negb_true_iff in Hc.
    cbn [xml_escape_all]. rewrite (xml_escape_plain c Hc), IH by exact H.
    reflexivity.
Qed.

End EscapeXmlFacts.

(** ** The interceptor and the headers it does not set *)

Section MiddlewareFrameFacts.
Import Middleware.

Lemma middleware_lookup (fresh : gmap string string) (pathname k : string) :
  middleware fresh pathname !! k
  = if decide ("cache-control" = k) then Some (cache_control_for pathname)
    else if decide ("server" = k) then Some "Apache"
    else if decide ("permissions-policy" = k)
         then Some "camera=(), microphone=(), geolocation=(self), payment=()"
    else if decide ("referrer-policy" = k)
         then Some "strict-origin-when-cross-origin"
    else if decide ("strict-transport-security" = k)
         then Some "max-age=31536000; includeSubDomains; preload"
    else if decide ("x-xss-protection" = k) then Some "1; mode=block"
    else if decide ("x-content-type-options" = k) then Some "nosniff"
    else if decide ("x-frame-options" = k) then Some "DENY"
    else fresh !! k.
Proof.
  unfold middleware, headers_set, Security.SECURITY_HEADERS.
  cbn [fold_left fst snd].
  repeat match goal with
         | |- context [JsStr.toLowerCase ?s] =>
             let r := eval vm_compute in (JsStr.toLowerCase s) in
             change (JsStr.toLowerCase s) with r
         end.
  rewrite !lookup_insert.
  repeat case_decide; try reflexivity; congruence.
Qed.

(** X19. The middleware touches no header but the eight it sets: a header
    of the fresh response under any other name is in the returned response
    with its value, however the name is written. Running it again on its own
    result changes nothing, and running it for another path gives what that
    path alone gives. *)
Theorem middleware_keeps_other_headers
    (fresh : gmap string string) (pathname : string) :
  (forall k,
      ~ In (JsStr.toLowerCase k) security_header_names ->
      headers_get k (middleware fresh pathname) = headers_get k fresh)
  /\ (forall other,
         middleware (middleware fresh pathname) other = middleware fresh other)
  /\ middleware (middleware fresh pathname) pathname = middleware fresh pathname
  /\ security_header_names
     = ["x-frame-options"; "x-content-type-options"; "x-xss-protection";
        "strict-transport-security"; "referrer-policy"; "permissions-policy";
        "server"; "cache-control"].
Proof.
  assert (Hagain : forall other,
             middleware (middleware fresh pathname) other
             = middleware fresh other).
  { intros other. apply map_eq. intros k. rewrite !middleware_lookup.
    repeat case_decide; reflexivity. }
  split; [|split; [exact Hagain | split; [apply Hagain | reflexivity]]].
  intros k Hk. unfold headers_get. rewrite middleware_lookup.
  change security_header_names
    with ["x-frame-options"; "x-content-type-options"; "x-xss-protection";
          "strict-transport-security"; "referrer-policy"; "permissions-policy";
          "server"; "cache-control"] in Hk.
  cbn [In] in Hk.
  repeat case_decide; try reflexivity; exfalso; apply Hk; tauto.
Qed.

(** X19 on a header of the framework and on a second run. *)
Lemma middleware_keeps_other_headers_witness :
  headers_get "X-Middleware-Next"
    (middleware (<["x-middleware-next" := "1"]> ∅) "/world/a-post")
  = headers_get "X-Middleware-Next" (<["x-middleware-next" := "1"]> ∅).
Proof.
  apply (middleware_keeps_other_headers (<["x-middleware-next" := "1"]> ∅)
           "/world/a-post").
  vm_compute. intuition discriminate.
Defined.

End MiddlewareFrameFacts.

(** ** Redirect validation, exactly *)

Section RedirectExactFacts.
Import Js Security.
Variable URL_new : Url.Constructor.

Lemma someM_true_iff {A : Type} (p : A -> Res bool) (l : list A) :
  someM p l = Ok true <->
  exists pre a post,
    l = pre ++ a :: post
    /\ p a = Ok true
    /\ Forall (fun b => p b = Ok false) pre.
Proof.
  induction l as [|x l IH]; cbn [someM].
  - split; [discriminate|]. intros (pre & a & post & H & _).
    destruct pre; discriminate.
  - destruct (p x) as [[|]|e] eqn:Hx; cbn [bind].
    + split; [|reflexivity]. intros _. exists [], x, l. auto.
    + rewrite IH. split.
      * intros (pre & a & post & -> & Ha & Hpre).
        exists (x :: pre), a, post. auto.
      * intros ([|y pre] & a & post & Heq & Ha & Hpre);
          injection Heq as -> ->; [congruence|].
        inversion Hpre; subst. exists pre, a, post. auto.
    + split; [discriminate|].
      intros ([|y pre] & a & post & Heq & Ha & Hpre);
        injection Heq as -> ->; [congruence|].
      inversion Hpre; subst. congruence.
Qed.

(** X20. [isValidRedirectUrl] returns [true] exactly when [url] parses
    against the base and the list of allowed origins has an entry of its
    protocol and host name before which every entry parses and differs from
    it. So an empty list allows nothing, and an entry that does not parse
    makes the function refuse every URL that no earlier entry allows, also
    one that a later entry would allow. *)
Theorem isValidRedirectUrl_exactly (url : string) (allowedOrigins : list string) :
  (isValidRedirectUrl URL_new url allowedOrigins = true <->
   exists parsed pre origin post,
     URL_new url (Some "http://localhost") = Ok parsed
     /\ allowedOrigins = pre ++ origin :: post
     /\ same_origin URL_new parsed origin = Ok true
     /\ Forall (fun o => same_origin URL_new parsed o = Ok false) pre)
  /\ isValidRedirectUrl URL_new url [] = false
  /\ (forall pre origin post e,
         allowedOrigins = pre ++ origin :: post ->
         URL_new origin None = Throw e ->
         (forall parsed,
             URL_new url (Some "http://localhost") = Ok parsed ->
             Forall (fun o => same_origin URL_new parsed o <> Ok true) pre) ->
         isValidRedirectUrl URL_new url allowedOrigins = false).
Proof.
  assert (Hiff :
    isValidRedirectUrl URL_new url allowedOrigins = true <->
    exists parsed pre origin post,
      URL_new url (Some "http://localhost") = Ok parsed
      /\ allowedOrigins = pre ++ origin :: post
      /\ same_origin URL_new parsed origin = Ok true
      /\ Forall (fun o => same_origin URL_new parsed o = Ok false) pre).
  { unfold isValidRedirectUrl.
    destruct (URL_new url (Some "http://localhost")) as [parsed|e]; cbn.
    - destruct (someM (same_origin URL_new parsed) allowedOrigins)
        as [[|]|e] eqn:Hsome; cbn.
      + split; [|reflexivity]. intros _.
        apply someM_true_iff in Hsome as (pre & origin & post & H).
        exists parsed, pre, origin, post. tauto.
      + split; [discriminate|].
        intros (parsed' & pre & origin & post & [= <-] & H).
        assert (Htrue : someM (same_origin URL_new parsed) allowedOrigins
                        = Ok true)
          by (apply someM_true_iff; eauto).
        congruence.
      + split; [discriminate|].
        intros (parsed' & pre & origin & post & [= <-] & H).
        assert (Htrue : someM (same_origin URL_new parsed) allowedOrigins
                        = Ok true)
          by (apply someM_true_iff; eauto).
        congruence.
    - split; [discriminate|]. intros (parsed & _ & _ & _ & H & _).
      discriminate. }
  split; [exact Hiff|]. split.
  - unfold isValidRedirectUrl.
    now destruct (URL_new url (Some "http://localhost")).
  - intros pre origin post e Heq Hthrow Hpre.
    apply Bool.not_true_is_false. intros Hvalid.
    apply Hiff in Hvalid
      as (parsed & pre' & origin' & post' & Hparsed & Heq' & Htrue & Hfalse).
    specialize (Hpre parsed Hparsed).
    assert (Hbad : same_origin URL_new parsed origin = Throw e)
      by (unfold same_origin; now rewrite Hthrow).
    clear Hiff Hparsed. subst allowedOrigins.
    revert pre' Heq' Hfalse.
    induction Hpre as [|o pre Ho Hpre IH]; intros pre' Heq' Hfalse.
    + destruct pre' as [|o' pre']; cbn in Heq'; injection Heq' as -> ?.
      * congruence.
      * inversion Hfalse; subst. congruence.
    + destruct pre' as [|o' pre']; cbn in Heq'; injection Heq' as -> ?.
      * contradiction.
      * inversion Hfalse; subst. eauto.
Qed.

End RedirectExactFacts.

Section RedirectExactExamples.
Import Js Security.

(** X20 with an entry that does not parse before the one that matches. *)
Lemma isValidRedirectUrl_exactly_witness :
  isValidRedirectUrl UrlModel.URL_new "https://example.com/account"
    ["example.com"; "https://example.com"] = false.
Proof.
  destruct (isValidRedirectUrl_exactly UrlModel.URL_new
              "https://example.com/account"
              ["example.com"; "https://example.com"]) as (_ & _ & Hbad).
  apply (Hbad [] "example.com" ["https://example.com"] TypeError);
    [reflexivity | reflexivity | constructor].
Defined.

End RedirectExactExamples.

(** ** Excerpts *)

Section ExcerptFacts.
Import ApiText Excerpts.

Lemma has_tag_append (a b : string) :
  has_tag a = false -> has_gt b = false -> has_tag (a +:+ b) = false.
Proof.
  intros Ha Hb. induction a as [|c a IH]; simpl in *.
  - now apply no_gt_no_tag.
  - apply orb_false_iff in Ha as [Hc Ha].
    rewrite has_gt_append, Hb, orb_false_r, Hc. now apply IH.
Qed.

Lemma has_tag_prefix (a b : string) :
  has_tag (a +:+ b) = false -> has_tag a = false.
Proof.
  induction a as [|c a IH]; simpl; [reflexivity|].
  intros H. apply orb_false_iff in H as [Hc H].
  rewrite (IH H), orb_false_r.
  rewrite has_gt_append in Hc.
  destruct (Ascii.eqb c "<"); [|reflexivity].
  cbn [andb] in *. now apply orb_false_iff in Hc as [Hc _].
Qed.

Lemma has_tag_suffix (a b : string) :
  has_tag (a +:+ b) = false -> has_tag b = false.
Proof.
  induction a as [|c a IH]; simpl; [auto|].
  intros H. apply orb_false_iff in H as [_ H]. auto.
Qed.

Lemma drop_spaces_suffix (s : string) :
  exists a, s = a +:+ JsStr.drop_spaces s.
Proof.
  induction s as [|c s [a IH]]; [now exists ""|]. simpl.
  destruct (JsStr.is_space c).
  - exists (String c a). simpl. now rewrite <- IH.
  - now exists "".
Qed.

Lemma trim_infix (s : string) :
  exists a b, s = a +:+ JsStr.trim s +:+ b.
Proof.
  unfold JsStr.trim.
  destruct (drop_spaces_suffix s) as [a Ha].
  destruct (drop_spaces_suffix (String.rev (JsStr.drop_spaces s))) as [b Hb].
  exists a, (String.rev b).
  rewrite <- rev_append, <- Hb, rev_involutive. exact Ha.
Qed.

Lemma substring_prefix (n : nat) (s : string) :
  exists b, s = String.substring 0 n s +:+ b.
Proof.
  revert n. induction s as [|c s IH]; intros [|n]; simpl.
  - now exists "".
  - now exists "".
  - now exists (String c s).
  - destruct (IH n) as [b Hb]. exists b. now rewrite <- Hb.
Qed.

Lemma has_tag_trim (s : string) :
  has_tag s = false -> has_tag (JsStr.trim s) = false.
Proof.
  intros H. destruct (trim_infix s) as (a & b & Hs).
  rewrite Hs in H. apply has_tag_suffix in H. now apply has_tag_prefix in H.
Qed.

Lemma has_tag_substring (n : nat) (s : string) :
  has_tag s = false -> has_tag (String.substring 0 n s) = false.
Proof.
  intros H. destruct (substring_prefix n s) as [b Hs].
  rewrite Hs in H. now apply has_tag_prefix in H.
Qed.

Lemma stripHtml_plain (html : option string) :
  has_tag (stripHtml html) = false.
Proof.
  destruct html as [s|]; [|reflexivity].
  rewrite stripHtml_strip. now apply strip_tags_no_tag.
Qed.

Lemma truncateText_no_tag (s : string) (len : Z) :
  has_tag s = false -> has_tag (truncateText (Some s) len) = false.
Proof.
  intros H. unfold truncateText.
  destruct (String.eqb s ""); [reflexivity|].
  destruct (Z.of_nat (String.length s) <=? len)%Z; [exact H|].
  apply has_tag_append; [|reflexivity].
  now apply has_tag_trim, has_tag_substring.
Qed.

Lemma truncateText_length (text : option string) (len : Z) :
  (String.length (truncateText text len) <= Z.to_nat len + 3)%nat.
Proof.
  unfold truncateText. destruct text as [s|]; [|simpl; lia].
  destruct (String.eqb s ""); [simpl; lia|].
  destruct (Z.of_nat (String.length s) <=? len)%Z eqn:Hle.
  - apply Z.leb_le in Hle. lia.
  - rewrite length_append.
    pose proof (length_trim (String.substring 0 (Z.to_nat len) s)).
    pose proof (length_substring 0 (Z.to_nat len) s).
    simpl. lia.
Qed.

(** X21. Whatever excerpt and content a post has, the excerpt that
    [HeroSection] and [ArticleCard] show and the description of the article
    page have no tag, and are at most 203, 103 and 160 characters long. An
    excerpt that is absent or empty gives way to the content; one that is
    not empty is taken also when it is nothing but tags, and then the text
    shown is empty although the post has content. *)
Theorem excerpts_are_plain_and_short (excerpt content : option string) :
  (has_tag (HeroSection_excerpt excerpt content) = false
   /\ (String.length (HeroSection_excerpt excerpt content) <= 203)%nat)
  /\ (has_tag (ArticleCard_excerpt excerpt content) = false
      /\ (String.length (ArticleCard_excerpt excerpt content) <= 103)%nat)
  /\ (has_tag (generateMetadata_description excerpt content) = false
      /\ (String.length (generateMetadata_description excerpt content)
          <= 160)%nat)
  /\ (excerpt = None \/ excerpt = Some "" ->
      HeroSection_excerpt excerpt content
      = truncateText (Some (stripHtml content)) 200
      /\ ArticleCard_excerpt excerpt content
         = truncateText (Some (stripHtml content)) 100
      /\ generateMetadata_description excerpt content
         = String.substring 0 160 (stripHtml content))
  /\ (forall e,
         excerpt = Some e -> e <> "" -> stripHtml (Some e) = "" ->
         HeroSection_excerpt excerpt content = ""
         /\ ArticleCard_excerpt excerpt content = ""
         /\ generateMetadata_description excerpt content = "").
Proof.
  pose proof (stripHtml_plain (or_else excerpt content)) as Hplain.
  repeat match goal with |- _ /\ _ => split end.
  - now apply truncateText_no_tag.
  - apply (truncateText_length _ 200).
  - now apply truncateText_no_tag.
  - apply (truncateText_length _ 100).
  - now apply has_tag_substring.
  - apply length_substring.
  - intros [-> | ->]; repeat split.
  - intros e -> He Hempty.
    unfold HeroSection_excerpt, ArticleCard_excerpt,
      generateMetadata_description, or_else.
    destruct (String.eqb_spec e ""); [contradiction|].
    rewrite Hempty. repeat split.
Qed.

(** X21 on an excerpt that is one image. *)
Lemma excerpts_are_plain_and_short_witness :
  ArticleCard_excerpt (Some "<img src='a.png'>") (Some "<p>The story</p>")
  = "".
Proof.
  destruct (excerpts_are_plain_and_short
              (Some "<img src='a.png'>") (Some "<p>The story</p>"))
    as (_ & _ & _ & _ & Hempty).
  apply (Hempty "<img src='a.png'>"); [reflexivity | discriminate | reflexivity].
Defined.

End ExcerptFacts.
